(** * Scalar coercion of [graphql]: a shallow embedding of [scalars.go] and
    [located.go], with the properties of the coercion units.

    Conventions of the embedding.
    - The target is a 64-bit platform: Go's [int] and [uint] are 64 bits wide.
    - A value of type [interface{}] is an element of [any]: the dynamic type is
      the constructor, the payload the dynamic value.
    - A Go function that can panic returns an [outcome].  The nil interface
      value ("no value") is the ordinary result [Returns Nil].
    - Integers are [Z], with the wrap-around of a conversion written out.
    - IEEE 754 values are [spec_float] with the operations of the Standard
      Library's [SpecFloat]; binary64 is [prec = 53], [emax = 1024] and
      binary32 is [prec = 24], [emax = 128]. *)

From Stdlib Require Import ZArith List String Ascii Bool Lia.
From Stdlib Require Import Floats.SpecFloat.
From Stdlib Require Import Decimal DecimalFacts DecimalPos DecimalString.
Import ListNotations.

Local Open Scope string_scope.
Local Open Scope Z_scope.

(** ** Machine integers *)

Module math.
Definition MinInt32 : Z := - 2 ^ 31.
Definition MaxInt32 : Z := 2 ^ 31 - 1.
Definition MinInt64 : Z := - 2 ^ 63.
Definition MaxInt64 : Z := 2 ^ 63 - 1.
Definition MaxUint64 : Z := 2 ^ 64 - 1.
End math.

(** The integer types of Go. *)
Inductive inttype : Set :=
| TInt | TInt8 | TInt16 | TInt32 | TInt64
| TUint | TUint8 | TUint16 | TUint32 | TUint64.

Definition min_of (t : inttype) : Z :=
  match t with
  | TInt | TInt64 => - 2 ^ 63
  | TInt8 => - 2 ^ 7
  | TInt16 => - 2 ^ 15
  | TInt32 => - 2 ^ 31
  | TUint | TUint8 | TUint16 | TUint32 | TUint64 => 0
  end.

Definition max_of (t : inttype) : Z :=
  match t with
  | TInt | TInt64 => 2 ^ 63 - 1
  | TInt8 => 2 ^ 7 - 1
  | TInt16 => 2 ^ 15 - 1
  | TInt32 => 2 ^ 31 - 1
  | TUint | TUint64 => 2 ^ 64 - 1
  | TUint8 => 2 ^ 8 - 1
  | TUint16 => 2 ^ 16 - 1
  | TUint32 => 2 ^ 32 - 1
  end.

(** [n] is a value of the integer type [t]. *)
Definition fits (t : inttype) (n : Z) : Prop := min_of t <= n <= max_of t.

(** The conversion [int64(n)] of an integer: two's complement wrap-around. *)
Definition to_int64 (n : Z) : Z := (n + 2 ^ 63) mod 2 ^ 64 - 2 ^ 63.

(** ** Floating-point values *)

Definition float64_prec : Z := 53.
Definition float64_emax : Z := 1024.
Definition float32_prec : Z := 24.
Definition float32_emax : Z := 128.

(** [float64(n)] of an integer: rounding to nearest, ties to even. *)
Definition float64_of_Z (n : Z) : spec_float :=
  binary_normalize float64_prec float64_emax n 0 false.

(** [float64(f)] of a binary32 value: exact, the mantissa is re-aligned. *)
Definition float64_of_float32 (f : spec_float) : spec_float :=
  match f with
  | S754_finite s m e =>
      binary_normalize float64_prec float64_emax (cond_Zopp s (Zpos m)) e false
  | _ => f
  end.

(** [x < y] and [x != 0] on floats; a NaN compares false with everything. *)
Definition float_lt (x y : spec_float) : bool := SFltb x y.

Definition float_nonzero (x : spec_float) : bool :=
  match x with
  | S754_zero _ => false
  | _ => true
  end.

(** The integer a finite float truncates to (toward zero), when the float is
    finite. *)
Definition float_trunc (f : spec_float) : option Z :=
  match f with
  | S754_zero _ => Some 0
  | S754_finite s m e =>
      Some (cond_Zopp s (if 0 <=? e then Zpos m * 2 ^ e else Zpos m / 2 ^ (- e)))
  | _ => None
  end.

(** The integer a float is equal to, when it is one. *)
Definition integer_value (f : spec_float) : option Z :=
  match f with
  | S754_zero _ => Some 0
  | S754_finite s m e =>
      if 0 <=? e then Some (cond_Zopp s (Zpos m * 2 ^ e))
      else if Zpos m mod 2 ^ (- e) =? 0 then Some (cond_Zopp s (Zpos m / 2 ^ (- e)))
      else None
  | _ => None
  end.

(** Zero or finite: neither an infinity nor a NaN. *)
Definition is_finite (f : spec_float) : bool :=
  match f with
  | S754_zero _ | S754_finite _ _ _ => true
  | _ => false
  end.

(** A binary64 value and a binary32 value in their canonical forms. *)
Definition valid64 (f : spec_float) : bool := valid_binary float64_prec float64_emax f.
Definition valid32 (f : spec_float) : bool := valid_binary float32_prec float32_emax f.

(** The value of a finite float in units of [2^-1074], the least positive
    binary64 value: an integer for a binary64 and for a binary32 value. *)
Definition ulps (f : spec_float) : Z :=
  match f with
  | S754_finite s m e => cond_Zopp s (Zpos m * 2 ^ (e + 1074))
  | _ => 0
  end.

(** ** Package [time]: the instants the RFC 3339 text format can name *)

Module time.

(** A [time.Time] by its civil fields in its own zone and the zone's offset
    east of UTC in seconds. *)
Record Time : Set := mkTime {
  Year : Z; Month : Z; Day : Z;
  Hour : Z; Minute : Z; Second : Z;
  Nanosecond : Z;
  Offset : Z
}.

Definition is_digit (c : ascii) : bool :=
  let n := nat_of_ascii c in (48 <=? n)%nat && (n <=? 57)%nat.

Definition digit_val (c : ascii) : Z := Z.of_nat (nat_of_ascii c) - 48.

Definition digit_char (d : Z) : ascii := ascii_of_nat (Z.to_nat (d + 48)).

(** [parseUint] of [parseRFC3339]: an unsigned decimal within [lo, hi]. *)
Fixpoint parse_digits (s : string) (acc : Z) : option Z :=
  match s with
  | EmptyString => Some acc
  | String c s' =>
      if is_digit c then parse_digits s' (acc * 10 + digit_val c) else None
  end.

Definition parseUint (s : string) (lo hi : Z) : option Z :=
  match parse_digits s 0 with
  | Some x => if (x <? lo) || (hi <? x) then None else Some x
  | None => None
  end.

Definition isLeap (year : Z) : bool :=
  (year mod 4 =? 0) && (negb (year mod 100 =? 0) || (year mod 400 =? 0)).

Definition daysIn (month year : Z) : Z :=
  if month =? 2 then (if isLeap year then 29 else 28)
  else if (month =? 4) || (month =? 6) || (month =? 9) || (month =? 11) then 30
  else 31.

Definition char_at (s : string) (n : nat) (c : ascii) : bool :=
  match String.get n s with
  | Some c' => Ascii.eqb c c'
  | None => false
  end.

(** The run of digits at the head of [s], and what follows it. *)
Fixpoint span_digits (s : string) : string * string :=
  match s with
  | EmptyString => (EmptyString, EmptyString)
  | String c s' =>
      if is_digit c
      then let (d, r) := span_digits s' in (String c d, r)
      else (EmptyString, s)
  end.

(** [parseNanoseconds]: the first nine digits of the fraction, padded with
    zeros on the right. *)
Definition parseNanoseconds (digits : string) : Z :=
  let d := String.substring 0 9 digits in
  match parse_digits d 0 with
  | Some x => x * 10 ^ (9 - Z.of_nat (String.length d))
  | None => 0
  end.

(** The zone designator: [Z], or [+hh:mm] / [-hh:mm]. *)
Definition parse_zone (s : string) : option Z :=
  if String.eqb s "Z" then Some 0
  else if negb (Nat.eqb (String.length s) 6) then None
  else
    match parseUint (String.substring 1 2 s) 0 23,
          parseUint (String.substring 4 2 s) 0 59 with
    | Some hr, Some mm =>
        if (char_at s 0 "-" || char_at s 0 "+") && char_at s 3 ":"
        then let zoneOffset := (hr * 60 + mm) * 60 in
             Some (if char_at s 0 "-" then - zoneOffset else zoneOffset)
        else None
    | _, _ => None
    end.

(** [Time.UnmarshalText] on the RFC 3339 grammar ([parseRFC3339]).  Go
    falls back to the layout parser for text outside of the grammar and
    accepts a few lenient spellings there; those are rejected here. *)
Definition UnmarshalText (s : string) : option Time :=
  if (String.length s <? 19)%nat then None
  else
    match parseUint (String.substring 0 4 s) 0 9999,
          parseUint (String.substring 5 2 s) 1 12 with
    | Some year, Some month =>
        match parseUint (String.substring 8 2 s) 1 (daysIn month year),
              parseUint (String.substring 11 2 s) 0 23,
              parseUint (String.substring 14 2 s) 0 59,
              parseUint (String.substring 17 2 s) 0 59 with
        | Some day, Some hour, Some min, Some sec =>
            if char_at s 4 "-" && char_at s 7 "-" && char_at s 10 "T"
               && char_at s 13 ":" && char_at s 16 ":"
            then
              let rest := String.substring 19 (String.length s - 19) s in
              let '(nsec, rest) :=
                match rest with
                | String "." (String c _ as frac) =>
                    if is_digit c
                    then let (d, r) := span_digits frac in (parseNanoseconds d, r)
                    else (0, rest)
                | _ => (0, rest)
                end in
              match parse_zone rest with
              | Some off => Some (mkTime year month day hour min sec nsec off)
              | None => None
              end
            else None
        | _, _, _, _ => None
        end
    | _, _ => None
    end.

(** [n] in decimal, at least [width] digits wide ([appendInt]). *)
Fixpoint pad_digits (width : nat) (n : Z) (acc : string) : string :=
  match width with
  | O => acc
  | S w => pad_digits w (n / 10) (String (digit_char (n mod 10)) acc)
  end.

Definition appendInt (n : Z) (width : nat) : string :=
  let u := Z.abs n in
  let digits :=
    if u <? 10 ^ Z.of_nat width then pad_digits width u ""
    else NilZero.string_of_int (Z.to_int u) in
  if n <? 0 then String "-" digits else digits.

(** The fraction of [RFC3339Nano]: nine digits with the trailing zeros
    trimmed, nothing for a whole second. *)
Fixpoint trim_zeros (fuel : nat) (n : Z) (width : nat) : string :=
  match fuel with
  | O => ""
  | S fuel' =>
      if n =? 0 then ""
      else if n mod 10 =? 0 then trim_zeros fuel' (n / 10) (Nat.pred width)
      else String "." (pad_digits width n "")
  end.

Definition format_zone (offset : Z) : string :=
  if offset =? 0 then "Z"
  else
    let zone := Z.quot offset 60 in
    let sign := if zone <? 0 then "-" else "+" in
    let zone := Z.abs zone in
    (sign ++ appendInt (zone / 60) 2 ++ ":" ++ appendInt (zone mod 60) 2)%string.

Definition appendFormatRFC3339 (t : Time) : string :=
  (appendInt (Year t) 4 ++ "-" ++ appendInt (Month t) 2 ++ "-"
   ++ appendInt (Day t) 2 ++ "T" ++ appendInt (Hour t) 2 ++ ":"
   ++ appendInt (Minute t) 2 ++ ":" ++ appendInt (Second t) 2
   ++ trim_zeros 9 (Nanosecond t) 9 ++ format_zone (Offset t))%string.

(** [Time.MarshalText]: RFC 3339 with nanoseconds; an error ([None]) for a
    year outside of [0, 9999] or a zone of 24 hours or more. *)
Definition MarshalText (t : Time) : option string :=
  if (Year t <? 0) || (9999 <? Year t) then None
  else if 24 * 3600 <=? Z.abs (Offset t) then None
  else Some (appendFormatRFC3339 t).

End time.


(** ** Package [strconv] *)

Module strconv.

Fixpoint digits_value (s : string) (acc : Z) : option Z :=
  match s with
  | EmptyString => Some acc
  | String c s' =>
      if time.is_digit c then digits_value s' (acc * 10 + time.digit_val c)
      else None
  end.

(** [strconv.Atoi]: an optional sign and one or more decimal digits, within
    the range of [int]; [None] stands for a non-nil error (syntax or
    range). *)
Definition Atoi (s : string) : option Z :=
  let '(neg, body) :=
    match s with
    | String "-" s' => (true, s')
    | String "+" s' => (false, s')
    | _ => (false, s)
    end in
  match body with
  | EmptyString => None
  | _ =>
      match digits_value body 0 with
      | Some un =>
          let n := if neg then - un else un in
          if (n <? math.MinInt64) || (math.MaxInt64 <? n) then None else Some n
      | None => None
      end
  end.

(** [strconv.FormatInt(n, 10)]. *)
Definition Itoa (n : Z) : string := NilZero.string_of_int (Z.to_int n).

End strconv.

(** ** Dynamic values *)

Record error : Set := errorString { Error : string }.

Module errors.
(** [errors.New]. *)
Definition New (text : string) : error := errorString text.
End errors.

(** The values of the types the coercion functions name. *)
Inductive basic : Set :=
| VBool (b : bool)
| VInteger (t : inttype) (n : Z)
| VFloat32 (f : spec_float)
| VFloat64 (f : spec_float)
| VString (s : string)
| VTime (t : time.Time).

Inductive basictype : Set :=
| TyBool | TyInteger (t : inttype) | TyFloat32 | TyFloat64 | TyString | TyTime.

Definition type_of (v : basic) : basictype :=
  match v with
  | VBool _ => TyBool
  | VInteger t _ => TyInteger t
  | VFloat32 _ => TyFloat32
  | VFloat64 _ => TyFloat64
  | VString _ => TyString
  | VTime _ => TyTime
  end.

(** A value of type [interface{}]. *)
Inductive any : Set :=
| Nil                        (* the nil interface: "no value" *)
| Val (v : basic)            (* a value of type bool, int, ..., time.Time *)
| Ptr (v : basic)            (* a non-nil pointer and what it points to *)
| NilPtr (t : basictype)     (* a nil pointer of type *bool, *int, ... *)
| Bytes (b : string)         (* a []byte *)
| Err (e : error)            (* a value of a type that implements error *)
| Stringer (text : string)   (* a value of another type with a String method *)
| Other (tag : nat).         (* a value of any other type *)

(** What a call does: it returns a value, or it panics. *)
Inductive outcome : Set :=
| Returns (v : any)
| Panics.

(** The integers as values of type [int], [float64], [string] and [bool]. *)
Definition int_ (n : Z) : any := Val (VInteger TInt n).
Definition float64_ (f : spec_float) : any := Val (VFloat64 f).
Definition string_ (s : string) : any := Val (VString s).
Definition bool_ (b : bool) : any := Val (VBool b).

(** What Go's standard library and the hardware decide and this development
    leaves open. *)
Record runtime : Type := {
  (** [strconv.ParseFloat(s, bitSize)]; [None] stands for a non-nil error. *)
  ParseFloat : string -> Z -> option spec_float;
  (** [int64(f)] of a float that is not finite or whose truncation is not an
      [int64]: the language leaves the result to the implementation. *)
  int64_invalid : spec_float -> Z;
  (** [Time.String]. *)
  Time_String : time.Time -> string;
  (** [fmt.Sprintf("%v", v)] of the values whose text depends on an address
      or on the shortest-decimal printing of a float. *)
  Sprint_opaque : any -> string
}.

(** ** Package [fmt] *)

Module fmt.

(** [fmt.Sprintf("%v", value)]. *)
Definition Sprintf_v (go : runtime) (value : any) : string :=
  match value with
  | Nil => "<nil>"
  | Val (VBool b) => if b then "true" else "false"
  | Val (VInteger _ n) => strconv.Itoa n
  | Val (VString s) => s
  | NilPtr _ => "<nil>"
  | Err e => Error e
  | Stringer text => text
  | Val (VTime t) => Time_String go t
  | Ptr (VTime t) => Time_String go t
  | _ => Sprint_opaque go value
  end.

End fmt.

(** ** Package [language/ast] *)

Module ast.

(** Modelled from the spec: the literal nodes of [language/ast] (the
    package's node types are not among the sources): a node is tagged
    by its kind and carries its raw source text, a boolean literal its
    value. *)
Inductive Value : Set :=
| IntValue (text : string)
| FloatValue (text : string)
| StringValue (text : string)
| BooleanValue (b : bool)
| EnumValue (text : string)
| VariableRef (name : string)
| ListValue
| ObjectValue.

(** A syntax node, as far as [NewLocatedError] looks at it: not at all. *)
Definition Node : Set := Value.

Record Location : Set := mkLocation {
  Start : Z;
  End_ : Z;
  Source : option string
}.

Definition NewLocation (loc : Location) : Location :=
  {| Start := Start loc; End_ := End_ loc; Source := Source loc |}.

End ast.

(** ** Package [gqlerrors] *)

Module gqlerrors.

(** Modelled from the spec: [gqlerrors.Error] and [gqlerrors.NewError] are
    not among the sources; the structured error holds the message, the
    nodes, the stack and the underlying error it is built from. *)
Record Error : Set := mkError {
  Message : string;
  Nodes : list ast.Node;
  Stack : string;
  OriginalError : option error
}.

Definition NewError (message : string) (nodes : list ast.Node) (stack : string)
    (source : option string) (positions : list Z) (origError : option error)
    : Error :=
  {| Message := message; Nodes := nodes; Stack := stack;
     OriginalError := origError |}.

End gqlerrors.

(** ** Package [graphql]: [scalars.go] and [located.go] *)

Module graphql.

(** Modelled from the spec: [ScalarConfig] and [NewScalar] are declared in
    a file that is not among the sources; a scalar definition holds its
    name, its description and its three functions as they are given. *)
Record ScalarConfig : Type := {
  Name : string;
  Description : string;
  Serialize : any -> outcome;
  ParseValue : any -> outcome;
  ParseLiteral : ast.Value -> any
}.

Definition Scalar : Type := ScalarConfig.

Definition NewScalar (config : ScalarConfig) : Scalar := config.

(** What the type switch of [coerceInt] leaves behind: the two locals [i]
    and [r], or a [return] taken inside of the switch. *)
Inductive switched : Set :=
| Assigned (i : Z) (r : spec_float)
| Return (o : outcome).

Definition float_zero : spec_float := S754_zero false.

Section Coercion.

Variable go : runtime.

(** [int64(f)] of a float: truncation toward zero. *)
Definition int64_of_float (f : spec_float) : Z :=
  match float_trunc f with
  | Some n =>
      if (math.MinInt64 <=? n) && (n <=? math.MaxInt64) then n
      else to_int64 (int64_invalid go f)
  | None => to_int64 (int64_invalid go f)
  end.

Definition coerceInt_switch (value : any) : switched :=
  match value with
  | Val (VBool b) | Ptr (VBool b) =>
      Assigned (if b then 1 else 0) float_zero
  | Val (VInteger t n) | Ptr (VInteger t n) =>
      match t with
      | TUint | TUint64 => Assigned (to_int64 n) (float64_of_Z n)
      | _ => Assigned (to_int64 n) float_zero
      end
  | Val (VFloat32 f) | Ptr (VFloat32 f) =>
      Assigned (int64_of_float f) (float64_of_float32 f)
  | Val (VFloat64 f) | Ptr (VFloat64 f) =>
      Assigned (int64_of_float f) f
  | Val (VString s) | Ptr (VString s) =>
      match ParseFloat go s 0 with
      | None => Return (Returns Nil)
      | Some val => Assigned (int64_of_float val) val
      end
  | NilPtr (TyBool | TyInteger _ | TyFloat32 | TyFloat64 | TyString) =>
      Return Panics
  | _ =>
      (* If the value cannot be transformed into an int, return nil *)
      Return (Returns Nil)
  end.

(** The two bound checks at the end of [coerceInt]. *)
Definition float_out_of_range (r : spec_float) : bool :=
  float_lt r (float64_of_Z math.MinInt32)
  || float_lt (float64_of_Z math.MaxInt32) r.

Definition int_out_of_range (i : Z) : bool :=
  (i <? math.MinInt32) || (math.MaxInt32 <? i).

Definition coerceInt (value : any) : outcome :=
  match coerceInt_switch value with
  | Return o => o
  | Assigned i r =>
      (* If the value is out of range, return nil instead of '0' *)
      if float_out_of_range r then Returns Nil
      else if int_out_of_range i then Returns Nil
      else Returns (int_ i)
  end.

(** Int is the GraphQL Integer type definition. *)
Definition Int : Scalar := NewScalar {|
  Name := "Int";
  Description :=
    "The `Int` scalar type represents non-fractional signed whole numeric "
    ++ "values. Int can represent values between -(2^31) and 2^31 - 1. ";
  Serialize := coerceInt;
  ParseValue := coerceInt;
  ParseLiteral := fun valueAST =>
    match valueAST with
    | ast.IntValue text =>
        match strconv.Atoi text with
        | Some intValue => int_ intValue
        | None => Nil
        end
    | _ => Nil
    end
|}.

Definition coerceFloat (value : any) : outcome :=
  match value with
  | Val (VBool b) | Ptr (VBool b) =>
      Returns (float64_ (if b then float64_of_Z 1 else float_zero))
  | Val (VInteger _ n) | Ptr (VInteger _ n) =>
      Returns (float64_ (float64_of_Z n))
  (* retain precision *)
  | Val (VFloat32 f) | Ptr (VFloat32 f) => Returns (Val (VFloat32 f))
  | Val (VFloat64 f) | Ptr (VFloat64 f) => Returns (float64_ f)
  | Val (VString s) | Ptr (VString s) =>
      match ParseFloat go s 0 with
      | None => Returns Nil
      | Some val => Returns (float64_ val)
      end
  | NilPtr (TyBool | TyInteger _ | TyFloat32 | TyFloat64 | TyString) =>
      Panics
  | _ => Returns (float64_ float_zero)
  end.

(** Float is the GraphQL float type definition. *)
Definition Float : Scalar := NewScalar {|
  Name := "Float";
  Description :=
    "The `Float` scalar type represents signed double-precision fractional "
    ++ "values as specified by "
    ++ "[IEEE 754](http://en.wikipedia.org/wiki/IEEE_floating_point). ";
  Serialize := coerceFloat;
  ParseValue := coerceFloat;
  ParseLiteral := fun valueAST =>
    match valueAST with
    | ast.FloatValue text | ast.IntValue text =>
        match ParseFloat go text 32 with
        | Some floatValue => float64_ floatValue
        | None => Nil
        end
    | _ => Nil
    end
|}.

Definition coerceString (value : any) : outcome :=
  match value with
  | Val (VString s) => Returns (string_ s)
  | Ptr (VString s) => Returns (string_ s)
  | NilPtr TyString => Panics
  (* value.(fmt.Stringer) *)
  | Val (VTime t) | Ptr (VTime t) => Returns (string_ (Time_String go t))
  | NilPtr TyTime => Panics
  | Stringer text => Returns (string_ text)
  | _ => Returns (string_ (fmt.Sprintf_v go value))
  end.

(** String is the GraphQL string type definition. *)
Definition String : Scalar := NewScalar {|
  Name := "String";
  Description :=
    "The `String` scalar type represents textual data, represented as UTF-8 "
    ++ "character sequences. The String type is most often used by GraphQL to "
    ++ "represent free-form human-readable text.";
  Serialize := coerceString;
  ParseValue := coerceString;
  ParseLiteral := fun valueAST =>
    match valueAST with
    | ast.StringValue text => string_ text
    | _ => Nil
    end
|}.

(** The value cases of [coerceBool]; the pointer cases call it on what
    the pointer points to. *)
Definition coerceBool_value (value : basic) : bool :=
  match value with
  | VBool b => b
  | VString s => if String.eqb s "" || String.eqb s "false" then false else true
  | VFloat64 f => if float_nonzero f then true else false
  | VFloat32 f => if float_nonzero f then true else false
  | VInteger TInt n => if negb (n =? 0) then true else false
  | _ => false
  end.

Definition coerceBool (value : any) : outcome :=
  match value with
  | Val v => Returns (bool_ (coerceBool_value v))
  | Ptr (VBool b) => Returns (bool_ b)
  | Ptr (VString s) => Returns (bool_ (coerceBool_value (VString s)))
  | Ptr (VFloat64 f) => Returns (bool_ (coerceBool_value (VFloat64 f)))
  | Ptr (VFloat32 f) => Returns (bool_ (coerceBool_value (VFloat32 f)))
  | Ptr (VInteger TInt n) => Returns (bool_ (coerceBool_value (VInteger TInt n)))
  | NilPtr (TyBool | TyString | TyFloat64 | TyFloat32 | TyInteger TInt) =>
      Panics
  | _ => Returns (bool_ false)
  end.

(** Boolean is the GraphQL boolean type definition. *)
Definition Boolean : Scalar := NewScalar {|
  Name := "Boolean";
  Description := "The `Boolean` scalar type represents `true` or `false`.";
  Serialize := coerceBool;
  ParseValue := coerceBool;
  ParseLiteral := fun valueAST =>
    match valueAST with
    | ast.BooleanValue b => bool_ b
    | _ => Nil
    end
|}.

Definition quote : string := String.String (ascii_of_nat 34) "".

(** ID is the GraphQL id type definition. *)
Definition ID : Scalar := NewScalar {|
  Name := "ID";
  Description :=
    "The `ID` scalar type represents a unique identifier, often used to "
    ++ "refetch an object or as key for a cache. The ID type appears in a JSON "
    ++ "response as a String; however, it is not intended to be human-readable. "
    ++ "When expected as an input type, any string (such as `" ++ quote ++ "4"
    ++ quote ++ "`) or integer "
    ++ "(such as `4`) input value will be accepted as an ID.";
  Serialize := coerceString;
  ParseValue := coerceString;
  ParseLiteral := fun valueAST =>
    match valueAST with
    | ast.IntValue text => string_ text
    | ast.StringValue text => string_ text
    | _ => Nil
    end
|}.

Definition serializeDateTime (value : any) : outcome :=
  match value with
  | Val (VTime t) | Ptr (VTime t) =>
      match time.MarshalText t with
      | None => Returns Nil
      | Some buff => Returns (string_ buff)
      end
  | NilPtr TyTime => Panics
  | _ => Returns Nil
  end.

Definition unserializeDateTime (value : any) : outcome :=
  match value with
  | Bytes b | Val (VString b) | Ptr (VString b) =>
      match time.UnmarshalText b with
      | None => Returns Nil
      | Some t => Returns (Val (VTime t))
      end
  | NilPtr TyString => Panics
  | _ => Returns Nil
  end.

Definition DateTime : Scalar := NewScalar {|
  Name := "DateTime";
  Description :=
    "The `DateTime` scalar type represents a DateTime."
    ++ " The DateTime is serialized as an RFC 3339 quoted string";
  Serialize := serializeDateTime;
  ParseValue := unserializeDateTime;
  ParseLiteral := fun valueAST =>
    match valueAST with
    | ast.StringValue text => string_ text
    | _ => Nil
    end
|}.

Definition NewLocatedError (err : any) (nodes : list ast.Node)
    : gqlerrors.Error :=
  let origError : option error := None in
  let message := "An unknown error occurred." in
  let '(message, origError) :=
    match err with
    | Err e => (Error e, Some e)
    | _ => (message, origError)
    end in
  let '(message, origError) :=
    match err with
    | Val (VString s) => (s, Some (errors.New s))
    | _ => (message, origError)
    end in
  let stack := message in
  gqlerrors.NewError message nodes stack None [] origError.

End Coercion.

Section FieldASTs.

(** [ast.Field] is declared in a file that is not among the sources: the
    type of field nodes and their use as an [ast.Node] are parameters. *)
Variable Field : Type.
Variable node_of_field : Field -> ast.Node.

(** The loop appends the fields one by one to an empty slice. *)
Definition FieldASTsToNodeASTs (fieldASTs : list Field) : list ast.Node :=
  fold_left (fun nodes fieldAST => (nodes ++ [node_of_field fieldAST])%list)
            fieldASTs [].

End FieldASTs.

End graphql.

(** ** The kinds of input each coercion function has a case for *)

(** The types [coerceInt] and [coerceFloat] switch on, by value or by
    pointer. *)
Definition numeric_type (t : basictype) : bool :=
  match t with
  | TyBool | TyInteger _ | TyFloat32 | TyFloat64 | TyString => true
  | TyTime => false
  end.

(** The types [coerceBool] switches on, by value or by pointer. *)
Definition bool_type (t : basictype) : bool :=
  match t with
  | TyBool | TyString | TyFloat64 | TyFloat32 | TyInteger TInt => true
  | _ => false
  end.

(** The kind of a dynamic value with respect to a set of types: one of the
    types by value or behind a pointer that is not nil, a nil pointer to one
    of the types, or anything else. *)
Inductive kind : Set := Supported | NilPointer | Unsupported.

Definition kind_of (types : basictype -> bool) (value : any) : kind :=
  match value with
  | Val v | Ptr v => if types (type_of v) then Supported else Unsupported
  | NilPtr t => if types t then NilPointer else Unsupported
  | _ => Unsupported
  end.

(** The type [serializeDateTime] switches on. *)
Definition time_type (t : basictype) : bool :=
  match t with
  | TyTime => true
  | _ => false
  end.

(** The inputs [unserializeDateTime] has a case for: bytes and strings. *)
Definition is_text (value : any) : bool :=
  match value with
  | Bytes _ | Val (VString _) | Ptr (VString _) | NilPtr TyString => true
  | _ => false
  end.

(** The inputs [coerceString] has a case for, and those whose type has a
    [String] method: a [time.Time], a pointer to one, and the values of the
    other types that implement [fmt.Stringer]. *)
Definition is_string_or_pointer (value : any) : bool :=
  match value with
  | Val (VString _) | Ptr (VString _) | NilPtr TyString => true
  | _ => false
  end.

Definition has_String_method (value : any) : bool :=
  match value with
  | Stringer _ | Val (VTime _) | Ptr (VTime _) | NilPtr TyTime => true
  | _ => false
  end.

(** The failure values [NewLocatedError] tells apart. *)
Definition is_error (err : any) : bool :=
  match err with
  | Err _ => true
  | _ => false
  end.

Definition is_string (err : any) : bool :=
  match err with
  | Val (VString _) => true
  | _ => false
  end.

Definition is_int_literal (node : ast.Value) : bool :=
  match node with
  | ast.IntValue _ => true
  | _ => false
  end.

Definition is_string_literal (node : ast.Value) : bool :=
  match node with
  | ast.StringValue _ => true
  | _ => false
  end.

(** Sequencing of two calls: the second runs on what the first returns. *)
Definition and_then (o : outcome) (f : any -> outcome) : outcome :=
  match o with
  | Returns v => f v
  | Panics => Panics
  end.

Definition is_nil_pointer (value : any) : bool :=
  match value with
  | NilPtr _ => true
  | _ => false
  end.

(** An instance of [runtime] to run the functions on: [ParseFloat] reads
    decimal integers only, an invalid conversion to [int64] gives the least
    [int64] as on amd64, the two printers are constant. *)
Definition sample_runtime : runtime := {|
  ParseFloat := fun s _ =>
    match strconv.Atoi s with
    | Some n => Some (float64_of_Z n)
    | None => None
    end;
  int64_invalid := fun _ => math.MinInt64;
  Time_String := fun _ => "2021-01-02 03:04:05 +0000 UTC";
  Sprint_opaque := fun _ => "0xc000012345"
|}.

(** A second instance of [runtime]: an invalid conversion to [int64] gives
    0 for a NaN and the nearest bound otherwise, as on arm64. *)
Definition saturating_runtime : runtime := {|
  ParseFloat := ParseFloat sample_runtime;
  int64_invalid := fun f =>
    match f with
    | S754_nan => 0
    | S754_infinity true | S754_finite true _ _ => math.MinInt64
    | _ => math.MaxInt64
    end;
  Time_String := Time_String sample_runtime;
  Sprint_opaque := Sprint_opaque sample_runtime
|}.

(** ** Further predicates on literal nodes and on timestamps *)

Definition is_bool_literal (node : ast.Value) : bool :=
  match node with
  | ast.BooleanValue _ => true
  | _ => false
  end.

Definition is_float_literal (node : ast.Value) : bool :=
  match node with
  | ast.FloatValue _ => true
  | _ => false
  end.

(** The timestamps RFC 3339 can write: a year of four digits, a date of the
    calendar, a time of day, and a zone of whole minutes less than a day
    from UTC. *)
Definition rfc3339_time (t : time.Time) : bool :=
  (0 <=? time.Year t) && (time.Year t <=? 9999)
  && (1 <=? time.Month t) && (time.Month t <=? 12)
  && (1 <=? time.Day t) && (time.Day t <=? time.daysIn (time.Month t) (time.Year t))
  && (0 <=? time.Hour t) && (time.Hour t <=? 23)
  && (0 <=? time.Minute t) && (time.Minute t <=? 59)
  && (0 <=? time.Second t) && (time.Second t <=? 59)
  && (0 <=? time.Nanosecond t) && (time.Nanosecond t <? 10 ^ 9)
  && (time.Offset t mod 60 =? 0) && (Z.abs (time.Offset t) <? 24 * 3600).

(** What [time.UnmarshalText] does with the text after the seconds: the
    fraction of a second, if there is one, and the zone. *)
Definition fraction_and_zone (rest : string) : option (Z * Z) :=
  let '(nsec, rest) :=
    match rest with
    | String "." (String c _ as frac) =>
        if time.is_digit c
        then let (d, r) := time.span_digits frac in (time.parseNanoseconds d, r)
        else (0, rest)
    | _ => (0, rest)
    end in
  match time.parse_zone rest with
  | Some off => Some (nsec, off)
  | None => None
  end.

(** A zone starts with [Z], [+] or [-]: not with a digit nor with a dot. *)
Definition zone_head (z : string) : Prop :=
  exists c rest, z = String c rest /\ time.is_digit c = false /\ c <> "."%char.

(** * Facts about the floating-point operations *)

Section FloatFacts.

(** A positive number of [d] binary digits lies in [2^(d-1), 2^d). *)
Lemma digits2_pos_bounds (m : positive) :
  2 ^ (Zpos (digits2_pos m) - 1) <= Zpos m < 2 ^ Zpos (digits2_pos m).
Proof.
  induction m as [p IH | p IH |]; cbn [digits2_pos].
  - rewrite Pos2Z.inj_succ.
    replace (Z.succ (Zpos (digits2_pos p)) - 1) with (Z.succ (Zpos (digits2_pos p) - 1)) by lia.
    rewrite !Z.pow_succ_r by lia. lia.
  - rewrite Pos2Z.inj_succ.
    replace (Z.succ (Zpos (digits2_pos p)) - 1) with (Z.succ (Zpos (digits2_pos p) - 1)) by lia.
    rewrite !Z.pow_succ_r by lia. lia.
  - cbn. lia.
Qed.

Lemma digits2_pos_unique (m : positive) (k : Z) :
  2 ^ (k - 1) <= Zpos m < 2 ^ k -> Zpos (digits2_pos m) = k.
Proof.
  intros [Hlo Hhi].
  pose proof (digits2_pos_bounds m) as [Dlo Dhi].
  assert (0 < k).
  { destruct (Z_lt_le_dec 0 k) as [|Hk]; [assumption|].
    assert (2 ^ k <= 2 ^ 0) by (apply Z.pow_le_mono_r; lia).
    change (2 ^ 0) with 1 in *. lia. }
  destruct (Z_lt_le_dec (Zpos (digits2_pos m)) k) as [Hlt|Hge].
  - assert (2 ^ Zpos (digits2_pos m) <= 2 ^ (k - 1)) by (apply Z.pow_le_mono_r; lia).
    lia.
  - destruct (Z_lt_le_dec k (Zpos (digits2_pos m))) as [Hlt|Hle]; [|lia].
    assert (2 ^ k <= 2 ^ (Zpos (digits2_pos m) - 1)) by (apply Z.pow_le_mono_r; lia).
    lia.
Qed.

Lemma bounded64_inv (m : positive) (e : Z) :
  bounded float64_prec float64_emax m e = true ->
  -1074 <= e <= 971 /\ Zpos (digits2_pos m) <= 53
  /\ (Zpos (digits2_pos m) = 53 \/ e = -1074).
Proof.
  unfold bounded, canonical_mantissa, fexp, emin, float64_prec, float64_emax.
  rewrite andb_true_iff, Z.eqb_eq, Z.leb_le. lia.
Qed.

Lemma bounded32_inv (m : positive) (e : Z) :
  bounded float32_prec float32_emax m e = true ->
  -149 <= e <= 104 /\ Zpos (digits2_pos m) <= 24.
Proof.
  unfold bounded, canonical_mantissa, fexp, emin, float32_prec, float32_emax.
  rewrite andb_true_iff, Z.eqb_eq, Z.leb_le. lia.
Qed.

(** Two canonical mantissas at different exponents: the one at the greater
    exponent is the greater number. *)
Lemma canonical_lt (m1 m2 : positive) (e1 e2 : Z) :
  bounded float64_prec float64_emax m1 e1 = true ->
  bounded float64_prec float64_emax m2 e2 = true ->
  e1 < e2 ->
  Zpos m1 * 2 ^ (e1 + 1074) < Zpos m2 * 2 ^ (e2 + 1074).
Proof.
  intros B1 B2 Hlt.
  apply bounded64_inv in B1 as (E1 & D1 & _).
  apply bounded64_inv in B2 as (E2 & D2 & [D2'|]); [|lia].
  pose proof (digits2_pos_bounds m1) as [_ U1].
  pose proof (digits2_pos_bounds m2) as [L2 _].
  rewrite D2' in L2. change (2 ^ (53 - 1)) with (2 ^ 52) in L2.
  assert (Zpos m1 < 2 ^ 53).
  { eapply Z.lt_le_trans; [exact U1|]. apply Z.pow_le_mono_r; lia. }
  replace (e2 + 1074) with ((e2 - e1 - 1) + 1 + (e1 + 1074)) by lia.
  rewrite (Z.pow_add_r 2 (e2 - e1 - 1 + 1) (e1 + 1074)) by lia.
  rewrite (Z.pow_add_r 2 (e2 - e1 - 1) 1) by lia.
  assert (0 < 2 ^ (e1 + 1074)) by (apply Z.pow_pos_nonneg; lia).
  assert (1 <= 2 ^ (e2 - e1 - 1)).
  { change 1 with (2 ^ 0). apply Z.pow_le_mono_r; lia. }
  change (2 ^ 1) with 2. change (2 ^ 53) with (2 * 2 ^ 52) in *.
  set (P := 2 ^ (e1 + 1074)) in *. set (Q := 2 ^ (e2 - e1 - 1)) in *.
  set (T := 2 ^ 52) in *.
  assert (Zpos m1 * P < 2 * T * P) by nia.
  assert (T * P <= Zpos m2 * P) by nia.
  assert (Zpos m2 * P <= Zpos m2 * Q * P) by nia.
  nia.
Qed.

(** On canonical binary64 values, [SFltb] is the order of the values. *)
Lemma SFltb_ulps (x y : spec_float) :
  valid64 x = true -> valid64 y = true ->
  is_finite x = true -> is_finite y = true ->
  SFltb x y = (ulps x <? ulps y).
Proof.
  unfold valid64, SFltb.
  destruct x as [sx | sx | | sx mx ex]; try discriminate;
  destruct y as [sy | sy | | sy my ey]; try discriminate;
  cbn [valid_binary is_finite ulps SFcompare]; intros Vx Vy _ _.
  - reflexivity.
  - assert (0 < Zpos my * 2 ^ (ey + 1074)).
    { apply bounded64_inv in Vy. apply Z.mul_pos_pos; [lia|apply Z.pow_pos_nonneg; lia]. }
    symmetry. destruct sy; cbn [cond_Zopp]; [apply Z.ltb_ge | apply Z.ltb_lt]; lia.
  - assert (0 < Zpos mx * 2 ^ (ex + 1074)).
    { apply bounded64_inv in Vx. apply Z.mul_pos_pos; [lia|apply Z.pow_pos_nonneg; lia]. }
    symmetry. destruct sx; cbn [cond_Zopp]; [apply Z.ltb_lt | apply Z.ltb_ge]; lia.
  - assert (Px : 0 < Zpos mx * 2 ^ (ex + 1074)).
    { apply bounded64_inv in Vx. apply Z.mul_pos_pos; [lia|apply Z.pow_pos_nonneg; lia]. }
    assert (Py : 0 < Zpos my * 2 ^ (ey + 1074)).
    { apply bounded64_inv in Vy. apply Z.mul_pos_pos; [lia|apply Z.pow_pos_nonneg; lia]. }
    assert (Heq : ex = ey -> 0 < 2 ^ (ex + 1074) /\ 2 ^ (ey + 1074) = 2 ^ (ex + 1074)).
    { intros ->. split; [|reflexivity]. apply bounded64_inv in Vy.
      apply Z.pow_pos_nonneg; lia. }
    symmetry.
    destruct sx, sy; cbn [cond_Zopp];
      try (apply Z.ltb_lt; lia); try (apply Z.ltb_ge; lia);
      destruct (Z.compare_spec ex ey) as [E|E|E].
    + destruct (Heq E) as [Hp ->]. rewrite Pos.compare_cont_spec. cbn [Pos.switch_Eq].
      destruct (Pos.compare_spec mx my) as [C|C|C]; cbn [CompOpp];
        [apply Z.ltb_ge | apply Z.ltb_ge | apply Z.ltb_lt]; subst; try nia.
    + pose proof (canonical_lt _ _ _ _ Vx Vy E). apply Z.ltb_ge. lia.
    + pose proof (canonical_lt _ _ _ _ Vy Vx E). apply Z.ltb_lt. lia.
    + destruct (Heq E) as [Hp ->]. rewrite Pos.compare_cont_spec. cbn [Pos.switch_Eq].
      destruct (Pos.compare_spec mx my) as [C|C|C];
        [apply Z.ltb_ge | apply Z.ltb_lt | apply Z.ltb_ge]; subst; try nia.
    + pose proof (canonical_lt _ _ _ _ Vx Vy E). apply Z.ltb_lt. lia.
    + pose proof (canonical_lt _ _ _ _ Vy Vx E). apply Z.ltb_ge. lia.
Qed.

Lemma iter_xO_value (m k : positive) :
  Zpos (Pos.iter xO m k) = Zpos m * 2 ^ Zpos k.
Proof.
  induction k as [|k IH] using Pos.peano_ind.
  - cbn. lia.
  - rewrite Pos.iter_succ, Pos2Z.inj_succ, Z.pow_succ_r by lia.
    rewrite Pos2Z.inj_xO, IH. lia.
Qed.

Lemma iter_xO_digits (m k : positive) :
  Zpos (digits2_pos (Pos.iter xO m k)) = Zpos (digits2_pos m) + Zpos k.
Proof.
  induction k as [|k IH] using Pos.peano_ind.
  - cbn [Pos.iter digits2_pos]. lia.
  - rewrite Pos.iter_succ. cbn [digits2_pos]. rewrite !Pos2Z.inj_succ, IH. lia.
Qed.

(** Rounding a mantissa of 53 digits at an exponent in range changes
    nothing. *)
Lemma binary_round_aux_canonical (s : bool) (m : positive) (e : Z) :
  Zpos (digits2_pos m) = 53 -> -1074 <= e <= 971 ->
  binary_round_aux float64_prec float64_emax s (Zpos m) e loc_Exact
  = S754_finite s m e.
Proof.
  intros D E.
  assert (F : fexp float64_prec float64_emax (Zpos (digits2_pos m) + e) - e = 0).
  { unfold fexp, emin, float64_prec, float64_emax. lia. }
  unfold binary_round_aux, shr_fexp.
  cbn [Zdigits2 shr_record_of_loc]. rewrite F.
  cbn [shr shr_m loc_of_shr_record round_nearest_even Zdigits2 shr_record_of_loc].
  rewrite F. cbn [shr shr_m].
  replace (e <=? float64_emax - float64_prec) with true; [reflexivity|].
  symmetry. apply Z.leb_le. unfold float64_prec, float64_emax. lia.
Qed.

(** A mantissa of at most 53 digits is aligned, not rounded. *)
Lemma binary_round_exact (s : bool) (m : positive) (e : Z) :
  Zpos (digits2_pos m) <= 53 ->
  -1074 <= Zpos (digits2_pos m) + e - 53 <= 971 ->
  exists m',
    binary_round float64_prec float64_emax s m e
    = S754_finite s m' (Zpos (digits2_pos m) + e - 53)
    /\ bounded float64_prec float64_emax m' (Zpos (digits2_pos m) + e - 53) = true
    /\ Zpos m' * 2 ^ (Zpos (digits2_pos m) + e - 53 + 1074)
       = Zpos m * 2 ^ (e + 1074).
Proof.
  intros D E. set (d := Zpos (digits2_pos m)) in *.
  assert (B : forall m', Zpos (digits2_pos m') = 53 ->
              bounded float64_prec float64_emax m' (d + e - 53) = true).
  { intros m' D'. unfold bounded, canonical_mantissa, fexp, emin, float64_prec, float64_emax.
    rewrite D'. apply andb_true_iff. rewrite Z.eqb_eq, Z.leb_le. lia. }
  unfold binary_round.
  assert (F : fexp float64_prec float64_emax (d + e) = d + e - 53).
  { unfold fexp, emin, float64_prec, float64_emax. lia. }
  fold d. rewrite F. unfold shl_align.
  destruct (d + e - 53 - e) as [|k|k] eqn:K; try lia.
  - replace (d + e - 53) with e by lia.
    exists m. rewrite binary_round_aux_canonical by (fold d; lia).
    split; [reflexivity|split; [|reflexivity]].
    replace e with (d + e - 53) by lia. apply B. fold d. lia.
  - exists (Pos.iter xO m k).
    assert (D' : Zpos (digits2_pos (Pos.iter xO m k)) = 53).
    { rewrite iter_xO_digits. fold d. lia. }
    rewrite binary_round_aux_canonical by (assumption || lia).
    split; [reflexivity|split; [apply B; assumption|]].
    rewrite iter_xO_value.
    replace (e + 1074) with (Zpos k + (d + e - 53 + 1074)) by lia.
    rewrite (Z.pow_add_r 2 (Zpos k)) by lia. ring.
Qed.

(** [float64(n)] is exact below [2^53]. *)
Lemma float64_of_Z_exact (n : Z) :
  Z.abs n < 2 ^ 53 ->
  valid64 (float64_of_Z n) = true /\ is_finite (float64_of_Z n) = true
  /\ ulps (float64_of_Z n) = n * 2 ^ 1074.
Proof.
  intros H. unfold float64_of_Z, binary_normalize.
  destruct n as [|p|p]; [repeat split | |].
  all: pose proof (digits2_pos_bounds p) as [L _].
  all: assert (D : Zpos (digits2_pos p) <= 53)
    by (destruct (Z_lt_le_dec 53 (Zpos (digits2_pos p))) as [G|]; [|lia];
        assert (2 ^ 53 <= 2 ^ (Zpos (digits2_pos p) - 1))
          by (apply Z.pow_le_mono_r; lia); lia).
  all: destruct (binary_round_exact false p 0 D) as (m' & R & B & V);
    [lia|].
  all: destruct (binary_round_exact true p 0 D) as (m'' & R' & B' & V');
    [lia|].
  - rewrite R. cbn [valid64 valid_binary is_finite ulps cond_Zopp].
    repeat split; [exact B|]. rewrite V. reflexivity.
  - rewrite R'. cbn [valid64 valid_binary is_finite ulps cond_Zopp].
    repeat split; [exact B'|]. rewrite V'. change (0 + 1074) with 1074. lia.
Qed.

(** [float64(f)] of a binary32 value is the same number. *)
Lemma float64_of_float32_exact (f : spec_float) :
  valid32 f = true -> is_finite f = true ->
  valid64 (float64_of_float32 f) = true
  /\ is_finite (float64_of_float32 f) = true
  /\ ulps (float64_of_float32 f) = ulps f.
Proof.
  destruct f as [s | s | | s m e]; try discriminate; intros V _.
  - repeat split.
  - cbn [valid32 valid_binary] in V. apply bounded32_inv in V as (E & D).
    pose proof (Pos2Z.is_pos (digits2_pos m)).
    unfold float64_of_float32.
    destruct (binary_round_exact s m e) as (m' & R & B & U); try lia.
    replace (binary_normalize float64_prec float64_emax (cond_Zopp s (Zpos m)) e false)
      with (binary_round float64_prec float64_emax s m e)
      by (destruct s; reflexivity).
    rewrite R. cbn [valid64 valid_binary is_finite ulps].
    repeat split; [exact B|]. rewrite U. reflexivity.
Qed.

Lemma shr_1_m (mrs : shr_record) :
  0 <= shr_m mrs -> shr_m (shr_1 mrs) = shr_m mrs / 2.
Proof.
  destruct mrs as [m r t]. cbn [shr_m]. intros H. unfold shr_1.
  destruct m as [|[q|q|]|q]; cbn [shr_m]; try lia;
    Z.to_euclidean_division_equations; lia.
Qed.

Lemma iter_shr_1_m (k : positive) : forall mrs : shr_record,
  0 <= shr_m mrs -> shr_m (iter_pos shr_1 k mrs) = shr_m mrs / 2 ^ Zpos k.
Proof.
  assert (Hdiv : forall a b, 0 <= a -> 0 < b -> 0 <= a / b)
    by (intros; apply Z.div_pos; lia).
  induction k as [k IH | k IH |]; intros mrs H; cbn [iter_pos].
  - assert (0 <= shr_m (shr_1 mrs)) by (rewrite shr_1_m by lia; apply Hdiv; lia).
    assert (P : 0 < 2 ^ Zpos k) by (apply Z.pow_pos_nonneg; lia).
    assert (E : 2 ^ Zpos k~1 = 2 * 2 ^ Zpos k * 2 ^ Zpos k).
    { rewrite (Pos2Z.inj_xI k). replace (2 * Zpos k + 1) with (1 + Zpos k + Zpos k) by lia.
      rewrite !Z.pow_add_r by lia. reflexivity. }
    rewrite IH by (rewrite IH by lia; apply Hdiv; lia).
    rewrite IH by lia. rewrite shr_1_m by lia.
    rewrite !Z.div_div by lia. rewrite E. f_equal. ring.
  - assert (P : 0 < 2 ^ Zpos k) by (apply Z.pow_pos_nonneg; lia).
    assert (E : 2 ^ Zpos k~0 = 2 ^ Zpos k * 2 ^ Zpos k).
    { rewrite (Pos2Z.inj_xO k), <- Z.add_diag, Z.pow_add_r by lia. reflexivity. }
    rewrite IH by (rewrite IH by lia; apply Hdiv; lia).
    rewrite IH by lia.
    rewrite !Z.div_div by lia. rewrite E. reflexivity.
  - rewrite shr_1_m by lia. reflexivity.
Qed.

Lemma round_nearest_even_bounds (m : Z) (l : location) :
  m <= round_nearest_even m l <= m + 1.
Proof.
  destruct l as [|[| |]]; cbn [round_nearest_even]; try lia.
  destruct (Z.even m); lia.
Qed.

(** [float64(n)] of an integer of 64 binary digits: the mantissa is
    shifted right by 11 bits and rounded, so the result is a positive
    finite float at exponent 11, or 12 when rounding reaches [2^64]. *)
Lemma float64_of_Z_large (n : Z) :
  2 ^ 63 <= n < 2 ^ 64 ->
  match float64_of_Z n with
  | S754_finite false _ e => 11 <= e
  | _ => False
  end.
Proof.
  intros H. destruct n as [|p|p]; try lia.
  assert (D : Zpos (digits2_pos p) = 64) by (apply digits2_pos_unique; exact H).
  unfold float64_of_Z, binary_normalize, binary_round. rewrite D.
  replace (shl_align p 0 (fexp float64_prec float64_emax (64 + 0)))
    with (p, 0) by reflexivity.
  cbv iota beta.
  unfold binary_round_aux. unfold shr_fexp at 1. cbn [Zdigits2]. rewrite D.
  replace (fexp float64_prec float64_emax (64 + 0) - 0) with 11 by reflexivity.
  cbn [shr shr_record_of_loc]. cbv iota beta.
  set (mrs := iter_pos shr_1 11 _).
  assert (M : shr_m mrs = Zpos p / 2 ^ 11).
  { unfold mrs. rewrite iter_shr_1_m; cbn [shr_m]; [reflexivity|lia]. }
  pose proof (round_nearest_even_bounds (shr_m mrs) (loc_of_shr_record mrs)) as R.
  set (m2 := round_nearest_even (shr_m mrs) (loc_of_shr_record mrs)) in *.
  assert (B : 2 ^ 52 <= m2 <= 2 ^ 53).
  { rewrite M in R. change (2 ^ 11) with 2048 in R.
    change (2 ^ 63) with (2048 * 2 ^ 52) in H.
    change (2 ^ 64) with (2048 * 2 ^ 53) in H.
    set (T := 2 ^ 52) in *. set (U := 2 ^ 53) in *.
    Z.to_euclidean_division_equations. lia. }
  clearbody m2. clear R M. destruct m2 as [|q|q]; try lia.
  unfold shr_fexp. cbn [Zdigits2 shr_record_of_loc].
  destruct (Z_lt_le_dec (Zpos q) (2 ^ 53)) as [Lt|Ge].
  - rewrite (digits2_pos_unique q 53) by (change (2 ^ (53 - 1)) with (2 ^ 52); lia).
    replace (fexp float64_prec float64_emax (53 + (0 + 11)) - (0 + 11)) with 0
      by reflexivity.
    cbn [shr shr_m]. cbn. lia.
  - assert (Q : Zpos q = 2 ^ 53) by lia.
    rewrite (digits2_pos_unique q 54)
      by (change (2 ^ (54 - 1)) with (2 ^ 53); change (2 ^ 54) with (2 * 2 ^ 53); lia).
    replace (fexp float64_prec float64_emax (54 + (0 + 11)) - (0 + 11)) with 1
      by reflexivity.
    cbn [shr].
    pose proof (iter_shr_1_m 1 {| shr_m := Zpos q; shr_r := false; shr_s := false |})
      as S1.
    cbn [shr_m] in S1. rewrite Q in S1. specialize (S1 ltac:(lia)).
    change (2 ^ 53 / 2 ^ 1) with (2 ^ 52) in S1.
    rewrite <- Q in S1 at 1. rewrite S1.
    change (2 ^ 52) with (Zpos (2 ^ 52)%positive).
    cbn. lia.
Qed.

Lemma pow_1074_pos : 0 < 2 ^ 1074.
Proof. apply Z.pow_pos_nonneg; lia. Qed.

(** A float that is an integer: its value, and what it truncates to. *)
Lemma integer_value_ulps (f : spec_float) (x : Z) :
  match f with S754_finite _ _ e => -1074 <= e | _ => True end ->
  integer_value f = Some x ->
  is_finite f = true /\ ulps f = x * 2 ^ 1074 /\ float_trunc f = Some x.
Proof.
  destruct f as [s | s | | s m e]; cbn [integer_value]; try discriminate.
  - intros _ [= <-]. repeat split.
  - intros E. cbn [is_finite ulps float_trunc].
    destruct (Z.leb_spec 0 e) as [P|N].
    + intros H.
      assert (X : cond_Zopp s (Zpos m * 2 ^ e) = x) by congruence.
      subst x. clear H. split; [reflexivity|split; [|reflexivity]].
      rewrite Z.pow_add_r by lia. destruct s; cbn [cond_Zopp]; ring.
    + destruct (Z.eqb_spec (Zpos m mod 2 ^ (- e)) 0) as [M|]; [|discriminate].
      intros H.
      assert (X : cond_Zopp s (Zpos m / 2 ^ (- e)) = x) by congruence.
      subst x. clear H. split; [reflexivity|split; [|reflexivity]].
      assert (Q : 0 < 2 ^ (- e)) by (apply Z.pow_pos_nonneg; lia).
      assert (D : Zpos m = 2 ^ (- e) * (Zpos m / 2 ^ (- e)))
        by (apply Z.div_exact; lia).
      assert (T : 2 ^ (- e) * 2 ^ (e + 1074) = 2 ^ 1074)
        by (rewrite <- Z.pow_add_r by lia; f_equal; lia).
      rewrite D at 1. rewrite <- T.
      destruct s; cbn [cond_Zopp]; ring.
Qed.

Lemma valid64_exponent (f : spec_float) :
  valid64 f = true -> match f with S754_finite _ _ e => -1074 <= e | _ => True end.
Proof.
  destruct f as [s | s | | s m e]; try exact (fun _ => I).
  cbn [valid64 valid_binary]. intros B. apply bounded64_inv in B. lia.
Qed.

Lemma valid32_exponent (f : spec_float) :
  valid32 f = true -> match f with S754_finite _ _ e => -1074 <= e | _ => True end.
Proof.
  destruct f as [s | s | | s m e]; try exact (fun _ => I).
  cbn [valid32 valid_binary]. intros B. apply bounded32_inv in B. lia.
Qed.

Lemma to_int64_small (n : Z) :
  math.MinInt64 <= n <= math.MaxInt64 -> to_int64 n = n.
Proof.
  unfold math.MinInt64, math.MaxInt64, to_int64. intros H.
  rewrite Z.mod_small; lia.
Qed.

End FloatFacts.

(** * Facts about [strconv] *)

Section StrconvFacts.

(** Reading the digits of a decimal numeral [d] after the digits [a] (the
    last one first) gives the number the whole numeral denotes. *)
Lemma digits_value_revapp (d : Decimal.uint) : forall a : Decimal.uint,
  strconv.digits_value (NilEmpty.string_of_uint d) (Z.of_N (Unsigned.of_lu a))
  = Some (Z.of_N (Unsigned.of_lu (Decimal.revapp d a))).
Proof.
  induction d as [ | d IH | d IH | d IH | d IH | d IH | d IH | d IH | d IH
                 | d IH | d IH ]; intros a;
    [ reflexivity | .. ];
    cbn [NilEmpty.string_of_uint strconv.digits_value Decimal.revapp];
    change (time.is_digit _) with true; cbv iota;
    rewrite <- IH; f_equal; cbn [Unsigned.of_lu];
    match goal with
    | |- context [time.digit_val ?c] =>
        let v := eval vm_compute in (time.digit_val c) in
        change (time.digit_val c) with v
    end; lia.
Qed.

Lemma digits_value_to_uint (p : positive) :
  strconv.digits_value (NilEmpty.string_of_uint (Pos.to_uint p)) 0 = Some (Zpos p).
Proof.
  change 0 with (Z.of_N (Unsigned.of_lu Decimal.Nil)).
  rewrite digits_value_revapp.
  change (Decimal.revapp (Pos.to_uint p) Decimal.Nil) with (Decimal.rev (Pos.to_uint p)).
  rewrite <- Unsigned.of_uint_alt, Unsigned.of_to. reflexivity.
Qed.

(** The text of a positive number starts with a digit and is not empty. *)
Lemma string_of_to_uint (p : positive) :
  exists c rest,
    NilZero.string_of_uint (Pos.to_uint p) = String c rest
    /\ NilEmpty.string_of_uint (Pos.to_uint p) = String c rest
    /\ time.is_digit c = true.
Proof.
  pose proof (Unsigned.to_uint_nonnil p) as N.
  destruct (Pos.to_uint p); [congruence | ..];
    do 2 eexists; repeat split.
Qed.

(** [Atoi] reads back what [Itoa] prints, for every [int]. *)
Lemma Atoi_Itoa (n : Z) :
  math.MinInt64 <= n <= math.MaxInt64 -> strconv.Atoi (strconv.Itoa n) = Some n.
Proof.
  intros R. unfold strconv.Itoa.
  destruct n as [ | p | p ]; [reflexivity | | ];
    cbn [Z.to_int NilZero.string_of_int];
    destruct (string_of_to_uint p) as (c & rest & E0 & E & D);
    pose proof (digits_value_to_uint p) as V; rewrite E in V.
  - rewrite E0. unfold strconv.Atoi.
    destruct c as [[] [] [] [] [] [] [] []]; try discriminate D;
      cbv iota beta; rewrite V;
      replace ((Zpos p <? math.MinInt64) || (math.MaxInt64 <? Zpos p)) with false;
      try reflexivity; symmetry; apply orb_false_iff;
      rewrite !Z.ltb_ge; unfold math.MinInt64, math.MaxInt64 in *; lia.
  - rewrite E0. unfold strconv.Atoi. cbv iota beta. rewrite V.
    replace ((- Zpos p <? math.MinInt64) || (math.MaxInt64 <? - Zpos p)) with false;
      [reflexivity|].
    symmetry; apply orb_false_iff.
    rewrite !Z.ltb_ge; unfold math.MinInt64, math.MaxInt64 in *; lia.
Qed.

End StrconvFacts.

(** * Properties of the coercion units *)

Ltac by_cases value :=
  destruct value as [ | [ b | [] n | f | f | s | t ] | [ b | [] n | f | f | s | t ]
                    | [ | [] | | | | ] | bs | e | text | tag ].

Section Properties.

Variable go : runtime.

Import graphql.

(** *** Boolean *)

Lemma coerceBool_bool (b : bool) : coerceBool (bool_ b) = Returns (bool_ b).
Proof. reflexivity. Qed.

Lemma coerceBool_string (s : string) :
  coerceBool (string_ s)
  = Returns (bool_ (negb (String.eqb s "" || String.eqb s "false"))).
Proof.
  cbn. destruct (String.eqb s "" || String.eqb s "false"); reflexivity.
Qed.

Lemma coerceBool_int (n : Z) :
  coerceBool (int_ n) = Returns (bool_ (negb (n =? 0))).
Proof. cbn. destruct (n =? 0); reflexivity. Qed.

Lemma coerceBool_float (f : spec_float) :
  coerceBool (Val (VFloat64 f)) = Returns (bool_ (float_nonzero f))
  /\ coerceBool (Val (VFloat32 f)) = Returns (bool_ (float_nonzero f)).
Proof. cbn. destruct (float_nonzero f); split; reflexivity. Qed.

Lemma coerceBool_pointer (v : basic) :
  coerceBool (Ptr v) = coerceBool (Val v).
Proof. destruct v as [ b | [] n | f | f | s | t ]; reflexivity. Qed.

Lemma coerceBool_unsupported (value : any) :
  kind_of bool_type value = Unsupported -> coerceBool value = Returns (bool_ false).
Proof. by_cases value; cbn; intros H; try discriminate; reflexivity. Qed.

Lemma coerceBool_total (value : any) :
  kind_of bool_type value <> NilPointer ->
  exists b, coerceBool value = Returns (bool_ b).
Proof.
  by_cases value; cbn; intros H; try congruence; eexists; reflexivity.
Qed.

Lemma coerceBool_nil_pointer (value : any) :
  kind_of bool_type value = NilPointer -> coerceBool value = Panics.
Proof. by_cases value; cbn; intros H; try discriminate; reflexivity. Qed.

(** *** Float *)

Lemma coerceFloat_unsupported (value : any) :
  kind_of numeric_type value = Unsupported ->
  coerceFloat go value = Returns (float64_ float_zero).
Proof. by_cases value; cbn; intros H; try discriminate; reflexivity. Qed.

Lemma coerceFloat_parse_failure (s : string) :
  ParseFloat go s 0 = None ->
  coerceFloat go (string_ s) = Returns Nil
  /\ coerceFloat go (Ptr (VString s)) = Returns Nil.
Proof. intros H. cbn. rewrite H. split; reflexivity. Qed.

(** *** Int *)

Lemma coerceInt_unsupported (value : any) :
  kind_of numeric_type value = Unsupported -> coerceInt go value = Returns Nil.
Proof. by_cases value; cbn; intros H; try discriminate; reflexivity. Qed.

Lemma float_out_of_range_ulps (r : spec_float) :
  valid64 r = true -> is_finite r = true ->
  float_out_of_range r
  = (ulps r <? math.MinInt32 * 2 ^ 1074) || (math.MaxInt32 * 2 ^ 1074 <? ulps r).
Proof.
  intros V F. unfold float_out_of_range, float_lt.
  destruct (float64_of_Z_exact math.MinInt32) as (V1 & F1 & U1);
    [unfold math.MinInt32; lia|].
  destruct (float64_of_Z_exact math.MaxInt32) as (V2 & F2 & U2);
    [unfold math.MaxInt32; lia|].
  rewrite !SFltb_ulps, U1, U2 by assumption. reflexivity.
Qed.

(** The float check of a float whose value is the integer [x] is the
    integer check of [x]. *)
Lemma float_out_of_range_integer (r : spec_float) (x : Z) :
  valid64 r = true -> is_finite r = true -> ulps r = x * 2 ^ 1074 ->
  float_out_of_range r = int_out_of_range x.
Proof.
  intros V F U. rewrite float_out_of_range_ulps, U by assumption.
  unfold int_out_of_range. pose proof pow_1074_pos as P.
  set (T := 2 ^ 1074) in *. f_equal.
  - destruct (Z.ltb_spec x math.MinInt32); [apply Z.ltb_lt | apply Z.ltb_ge]; nia.
  - destruct (Z.ltb_spec math.MaxInt32 x); [apply Z.ltb_lt | apply Z.ltb_ge]; nia.
Qed.

Lemma float_out_of_range_zero : float_out_of_range float_zero = false.
Proof. reflexivity. Qed.

(** A [uint64] of 64 binary digits fails the float check. *)
Lemma float_out_of_range_large (n : Z) :
  2 ^ 63 <= n < 2 ^ 64 -> float_out_of_range (float64_of_Z n) = true.
Proof.
  intros H. pose proof (float64_of_Z_large n H) as L.
  unfold float_out_of_range, float_lt.
  destruct (float64_of_Z n) as [s | s | | [] m e]; try contradiction.
  apply orb_true_iff. right.
  replace (float64_of_Z math.MaxInt32)
    with (S754_finite false 9007199250546688 (-22)) by reflexivity.
  unfold SFltb. cbn [SFcompare].
  destruct (Z.compare_spec (-22) e); [lia | reflexivity | lia].
Qed.

Lemma int64_of_float_integer (f : spec_float) (x : Z) :
  float_trunc f = Some x -> math.MinInt64 <= x <= math.MaxInt64 ->
  int64_of_float go f = x.
Proof.
  intros T R. unfold int64_of_float. rewrite T.
  replace ((math.MinInt64 <=? x) && (x <=? math.MaxInt64)) with true; [reflexivity|].
  symmetry. apply andb_true_iff. rewrite !Z.leb_le. exact R.
Qed.

Lemma int_out_of_range_spec (x : Z) :
  int_out_of_range x = false <-> math.MinInt32 <= x <= math.MaxInt32.
Proof.
  unfold int_out_of_range. rewrite orb_false_iff, !Z.ltb_ge. lia.
Qed.

Lemma coerceInt_pointer (v : basic) :
  coerceInt go (Ptr v) = coerceInt go (Val v).
Proof. destruct v as [ b | [] n | f | f | s | t ]; reflexivity. Qed.

(** [coerceInt] on an integer of any type: the integer check decides. *)
Lemma coerceInt_integer (t : inttype) (n : Z) :
  fits t n ->
  coerceInt go (Val (VInteger t n))
  = Returns (if int_out_of_range n then Nil else int_ n).
Proof.
  intros F.
  assert (Signed : math.MinInt64 <= n <= math.MaxInt64 ->
            (if float_out_of_range float_zero then Returns Nil
             else if int_out_of_range (to_int64 n) then Returns Nil
             else Returns (int_ (to_int64 n)))
            = Returns (if int_out_of_range n then Nil else int_ n)).
  { intros R. rewrite float_out_of_range_zero, to_int64_small by exact R.
    destruct (int_out_of_range n); reflexivity. }
  assert (Unsigned : 0 <= n <= 2 ^ 64 - 1 ->
            (if float_out_of_range (float64_of_Z n) then Returns Nil
             else if int_out_of_range (to_int64 n) then Returns Nil
             else Returns (int_ (to_int64 n)))
            = Returns (if int_out_of_range n then Nil else int_ n)).
  { intros R. destruct (Z_lt_le_dec n (2 ^ 63)) as [Small|Large].
    - rewrite to_int64_small by (unfold math.MinInt64, math.MaxInt64; lia).
      destruct (Z_lt_le_dec n (2 ^ 53)) as [Exact|Rounded].
      + destruct (float64_of_Z_exact n) as (V & Fi & U); [lia|].
        rewrite (float_out_of_range_integer _ n V Fi U).
        destruct (int_out_of_range n); reflexivity.
      + assert (O : int_out_of_range n = true).
        { unfold int_out_of_range. apply orb_true_iff. right. apply Z.ltb_lt.
          unfold math.MaxInt32. lia. }
        rewrite O. destruct (float_out_of_range (float64_of_Z n)); reflexivity.
    - rewrite float_out_of_range_large by lia.
      assert (O : int_out_of_range n = true).
      { unfold int_out_of_range. apply orb_true_iff. right. apply Z.ltb_lt.
        unfold math.MaxInt32. lia. }
      rewrite O. reflexivity. }
  unfold fits in F. unfold math.MinInt64, math.MaxInt64 in Signed.
  destruct t; cbn [min_of max_of] in F; unfold coerceInt; cbn [coerceInt_switch];
    (apply Signed; lia) || (apply Unsigned; lia).
Qed.

(** [coerceInt] on a float that is an integer: the same result as on the
    integer. *)
Lemma coerceInt_checks (i x : Z) (r : spec_float) :
  valid64 r = true -> is_finite r = true -> ulps r = x * 2 ^ 1074 ->
  (int_out_of_range x = false -> i = x) ->
  (if float_out_of_range r then Returns Nil
   else if int_out_of_range i then Returns Nil
   else Returns (int_ i))
  = Returns (if int_out_of_range x then Nil else int_ x).
Proof.
  intros V F U I. rewrite (float_out_of_range_integer r x V F U).
  destruct (int_out_of_range x) eqn:O; [reflexivity|].
  rewrite (I eq_refl), O. reflexivity.
Qed.

Lemma coerceInt_float64 (f : spec_float) (x : Z) :
  valid64 f = true -> integer_value f = Some x ->
  coerceInt go (Val (VFloat64 f))
  = Returns (if int_out_of_range x then Nil else int_ x).
Proof.
  intros V I.
  destruct (integer_value_ulps f x (valid64_exponent f V) I) as (F & U & T).
  unfold coerceInt. cbn [coerceInt_switch].
  apply coerceInt_checks; try assumption.
  intros O. apply int_out_of_range_spec in O. apply int64_of_float_integer; [exact T|].
  unfold math.MinInt32, math.MaxInt32, math.MinInt64, math.MaxInt64 in *. lia.
Qed.

Lemma coerceInt_float32 (f : spec_float) (x : Z) :
  valid32 f = true -> integer_value f = Some x ->
  coerceInt go (Val (VFloat32 f))
  = Returns (if int_out_of_range x then Nil else int_ x).
Proof.
  intros V I.
  destruct (integer_value_ulps f x (valid32_exponent f V) I) as (F & U & T).
  destruct (float64_of_float32_exact f V F) as (V' & F' & U').
  unfold coerceInt. cbn [coerceInt_switch].
  apply coerceInt_checks; try assumption.
  - rewrite U'. exact U.
  - intros O. apply int_out_of_range_spec in O.
    apply int64_of_float_integer; [exact T|].
    unfold math.MinInt32, math.MaxInt32, math.MinInt64, math.MaxInt64 in *. lia.
Qed.

(** A result of [coerceInt] other than "no value" has passed both checks. *)
Lemma coerceInt_accepted (value v : any) :
  coerceInt go value = Returns v -> v <> Nil ->
  exists i r,
    coerceInt_switch go value = Assigned i r
    /\ float_out_of_range r = false /\ int_out_of_range i = false
    /\ v = int_ i.
Proof.
  unfold coerceInt. destruct (coerceInt_switch go value) as [i r | o] eqn:S.
  - destruct (float_out_of_range r) eqn:Fr; [intros [= <-]; congruence|].
    destruct (int_out_of_range i) eqn:Ir; [intros [= <-]; congruence|].
    intros [= <-] _. exists i, r. repeat split; assumption.
  - intros -> N. exfalso.
    by_cases value; cbn in S; try destruct (ParseFloat go s 0); congruence.
Qed.

Lemma coerceInt_rejected (value : any) (i : Z) (r : spec_float) :
  coerceInt_switch go value = Assigned i r ->
  float_out_of_range r = true \/ int_out_of_range i = true ->
  coerceInt go value = Returns Nil.
Proof.
  intros S H. unfold coerceInt. rewrite S.
  destruct (float_out_of_range r); [reflexivity|].
  destruct H as [H|H]; [discriminate|rewrite H; reflexivity].
Qed.

(** *** String and ID *)

Lemma coerceString_total (value : any) :
  is_nil_pointer value = false ->
  exists s, coerceString go value = Returns (string_ s).
Proof. by_cases value; cbn; intros H; try discriminate; eexists; reflexivity. Qed.

Lemma coerceString_never_nil (value v : any) :
  coerceString go value = Returns v -> v <> Nil.
Proof.
  by_cases value; cbn; intros H; try discriminate; injection H as <-; discriminate.
Qed.

(** *** DateTime *)

Lemma serializeDateTime_unsupported (value : any) :
  kind_of time_type value = Unsupported -> serializeDateTime value = Returns Nil.
Proof. by_cases value; cbn; intros H; try discriminate; reflexivity. Qed.

Lemma unserializeDateTime_unsupported (value : any) :
  is_text value = false -> unserializeDateTime value = Returns Nil.
Proof. by_cases value; cbn; intros H; try discriminate; reflexivity. Qed.

(** *** The claims about Boolean, Float, String, ID and DateTime *)

(** C2, as amended: [Boolean.ParseValue] passes booleans through unchanged;
    it coerces the strings [""] and ["false"] to [false] and every other
    string to [true]; it coerces an [int], a [float64] and a [float32] to
    [true] exactly when the value is not zero; a pointer that is not nil to
    a value of one of these five types is coerced like the value; every
    input that is neither a number, a boolean nor a string gives [false];
    and every input that is not a nil pointer gives a boolean. *)
Theorem Boolean_ParseValue_coercion :
  (forall b, ParseValue Boolean (bool_ b) = Returns (bool_ b))
  /\ ParseValue Boolean (string_ "") = Returns (bool_ false)
  /\ ParseValue Boolean (string_ "false") = Returns (bool_ false)
  /\ (forall s, String.eqb s "" = false -> String.eqb s "false" = false ->
       ParseValue Boolean (string_ s) = Returns (bool_ true))
  /\ (forall n, ParseValue Boolean (int_ n) = Returns (bool_ (negb (n =? 0))))
  /\ (forall f, ParseValue Boolean (Val (VFloat64 f)) = Returns (bool_ (float_nonzero f)))
  /\ (forall f, ParseValue Boolean (Val (VFloat32 f)) = Returns (bool_ (float_nonzero f)))
  /\ (forall v, bool_type (type_of v) = true ->
       ParseValue Boolean (Ptr v) = ParseValue Boolean (Val v))
  /\ (forall value, kind_of numeric_type value = Unsupported ->
       ParseValue Boolean value = Returns (bool_ false))
  /\ (forall value, is_nil_pointer value = false ->
       exists b, ParseValue Boolean value = Returns (bool_ b)).
Proof.
  change (ParseValue Boolean) with coerceBool.
  repeat match goal with |- _ /\ _ => split end.
  - exact coerceBool_bool.
  - reflexivity.
  - reflexivity.
  - intros s H1 H2. rewrite coerceBool_string, H1, H2. reflexivity.
  - exact coerceBool_int.
  - intros f. apply coerceBool_float.
  - intros f. apply coerceBool_float.
  - intros v _. apply coerceBool_pointer.
  - intros value H. apply coerceBool_unsupported.
    by_cases value; cbn in *; congruence.
  - intros value H. apply coerceBool_total.
    by_cases value; cbn in *; congruence.
Qed.

(** C3, as amended: for every input of a kind [coerceFloat] has no case
    for, [Float.ParseValue] returns the float [0.0] and not "no value",
    while a string that fails to parse as a floating literal gives "no
    value".  Of the other units, Int and DateTime (in both directions)
    return "no value" for the kinds they have no case for, Boolean returns
    [false], and String and ID never return "no value". *)
Theorem Float_ParseValue_unsupported_kind :
  (forall value, kind_of numeric_type value = Unsupported ->
     ParseValue (Float go) value = Returns (float64_ float_zero))
  /\ float64_ float_zero <> Nil
  /\ (forall s, ParseFloat go s 0 = None ->
       ParseValue (Float go) (string_ s) = Returns Nil)
  /\ (forall value, kind_of numeric_type value = Unsupported ->
       ParseValue (Int go) value = Returns Nil)
  /\ (forall value, kind_of time_type value = Unsupported ->
       Serialize DateTime value = Returns Nil)
  /\ (forall value, is_text value = false ->
       ParseValue DateTime value = Returns Nil)
  /\ (forall value, kind_of numeric_type value = Unsupported ->
       ParseValue Boolean value = Returns (bool_ false))
  /\ (forall value v, ParseValue (String go) value = Returns v -> v <> Nil)
  /\ (forall value v, ParseValue (ID go) value = Returns v -> v <> Nil).
Proof.
  repeat match goal with |- _ /\ _ => split end.
  - exact coerceFloat_unsupported.
  - discriminate.
  - intros s H. apply coerceFloat_parse_failure, H.
  - exact coerceInt_unsupported.
  - exact serializeDateTime_unsupported.
  - exact unserializeDateTime_unsupported.
  - intros value H. apply coerceBool_unsupported.
    by_cases value; cbn in *; congruence.
  - exact coerceString_never_nil.
  - exact coerceString_never_nil.
Qed.

(** C8, as amended: for every input that is not a nil pointer, [Serialize]
    and [ParseValue] of String and of ID return a string, never "no
    value": a string is passed through unchanged, a pointer to a string
    gives the string, a value with a [String] method gives what the method
    returns, and every other input gives the text [fmt] prints for it with
    the verb [%v]; the [int] 123 gives ["123"]. *)
Theorem String_ID_coercion :
  (forall value, is_nil_pointer value = false ->
     exists s,
       Serialize (String go) value = Returns (string_ s)
       /\ ParseValue (String go) value = Returns (string_ s)
       /\ Serialize (ID go) value = Returns (string_ s)
       /\ ParseValue (ID go) value = Returns (string_ s))
  /\ (forall s, ParseValue (String go) (string_ s) = Returns (string_ s))
  /\ (forall s, ParseValue (String go) (Ptr (VString s)) = Returns (string_ s))
  /\ (forall text, ParseValue (String go) (Stringer text) = Returns (string_ text))
  /\ (forall t n,
       ParseValue (String go) (Val (VInteger t n)) = Returns (string_ (strconv.Itoa n)))
  /\ (forall b,
       ParseValue (String go) (bool_ b) = Returns (string_ (if b then "true" else "false")))
  /\ (forall value,
       is_string_or_pointer value = false -> has_String_method value = false ->
       ParseValue (String go) value = Returns (string_ (fmt.Sprintf_v go value)))
  /\ ParseValue (String go) (int_ 123) = Returns (string_ "123").
Proof.
  change (ParseValue (String go)) with (coerceString go).
  change (Serialize (String go)) with (coerceString go).
  change (ParseValue (ID go)) with (coerceString go).
  change (Serialize (ID go)) with (coerceString go).
  repeat match goal with |- _ /\ _ => split end; try reflexivity.
  - intros value H. destruct (coerceString_total value H) as [s E].
    exists s. repeat split; exact E.
  - intros value H1 H2. by_cases value; cbn in *; try discriminate; reflexivity.
Qed.

(** *** The claims about Int and about serializing a parsed value *)

(** C1: for every integer [x] of [-2^31, 2^31-1], given as a value of any
    integer type, [Int.ParseValue] and [Int.Serialize] return [x]; for
    every integer [x] outside of these bounds, given as a value of an
    integer type that holds it or as a [float64] or a [float32] equal to
    it, [Int.ParseValue] returns "no value".  A float equal to an integer
    within the bounds gives that integer, a pointer is coerced like the
    value it points to, and a result is accepted only when both the check
    of the float [r] and the check of the integer [i] pass. *)
Theorem Int_ParseValue_bounds :
  (forall t x, fits t x -> math.MinInt32 <= x <= math.MaxInt32 ->
     ParseValue (Int go) (Val (VInteger t x)) = Returns (int_ x)
     /\ Serialize (Int go) (Val (VInteger t x)) = Returns (int_ x))
  /\ (forall t x, fits t x -> x < math.MinInt32 \/ math.MaxInt32 < x ->
       ParseValue (Int go) (Val (VInteger t x)) = Returns Nil)
  /\ (forall f x, valid64 f = true -> integer_value f = Some x ->
       x < math.MinInt32 \/ math.MaxInt32 < x ->
       ParseValue (Int go) (Val (VFloat64 f)) = Returns Nil)
  /\ (forall f x, valid32 f = true -> integer_value f = Some x ->
       x < math.MinInt32 \/ math.MaxInt32 < x ->
       ParseValue (Int go) (Val (VFloat32 f)) = Returns Nil)
  /\ (forall f x, valid64 f = true -> integer_value f = Some x ->
       math.MinInt32 <= x <= math.MaxInt32 ->
       ParseValue (Int go) (Val (VFloat64 f)) = Returns (int_ x))
  /\ (forall f x, valid32 f = true -> integer_value f = Some x ->
       math.MinInt32 <= x <= math.MaxInt32 ->
       ParseValue (Int go) (Val (VFloat32 f)) = Returns (int_ x))
  /\ (forall v, ParseValue (Int go) (Ptr v) = ParseValue (Int go) (Val v))
  /\ (forall value v, ParseValue (Int go) value = Returns v -> v <> Nil ->
       exists i r,
         coerceInt_switch go value = Assigned i r
         /\ float_out_of_range r = false /\ int_out_of_range i = false
         /\ v = int_ i)
  /\ (forall value i r, coerceInt_switch go value = Assigned i r ->
       float_out_of_range r = true \/ int_out_of_range i = true ->
       ParseValue (Int go) value = Returns Nil).
Proof.
  change (ParseValue (Int go)) with (coerceInt go).
  change (Serialize (Int go)) with (coerceInt go).
  assert (In : forall x, math.MinInt32 <= x <= math.MaxInt32 ->
                 int_out_of_range x = false)
    by (intros x; apply int_out_of_range_spec).
  assert (Out : forall x, x < math.MinInt32 \/ math.MaxInt32 < x ->
                  int_out_of_range x = true).
  { intros x H. destruct (int_out_of_range x) eqn:O; [reflexivity|].
    apply int_out_of_range_spec in O. lia. }
  repeat match goal with |- _ /\ _ => split end.
  - intros t x F R. rewrite coerceInt_integer, In by assumption.
    split; reflexivity.
  - intros t x F R. rewrite coerceInt_integer, Out by assumption. reflexivity.
  - intros f x V I R. rewrite (coerceInt_float64 f x), Out by assumption. reflexivity.
  - intros f x V I R. rewrite (coerceInt_float32 f x), Out by assumption. reflexivity.
  - intros f x V I R. rewrite (coerceInt_float64 f x), In by assumption. reflexivity.
  - intros f x V I R. rewrite (coerceInt_float32 f x), In by assumption. reflexivity.
  - exact coerceInt_pointer.
  - exact coerceInt_accepted.
  - exact coerceInt_rejected.
Qed.

(** C9: for each of Int, Float, String, Boolean and ID, and for every input
    on which [ParseValue] returns a value [v] other than "no value",
    [Serialize] of [v] returns [v]. *)
Theorem Serialize_ParseValue_stable (value v : any) :
  v <> Nil ->
  (ParseValue (Int go) value = Returns v -> Serialize (Int go) v = Returns v)
  /\ (ParseValue (Float go) value = Returns v -> Serialize (Float go) v = Returns v)
  /\ (ParseValue (String go) value = Returns v -> Serialize (String go) v = Returns v)
  /\ (ParseValue Boolean value = Returns v -> Serialize Boolean v = Returns v)
  /\ (ParseValue (ID go) value = Returns v -> Serialize (ID go) v = Returns v).
Proof.
  intros N.
  change (ParseValue (Int go)) with (coerceInt go).
  change (Serialize (Int go)) with (coerceInt go).
  change (ParseValue (Float go)) with (coerceFloat go).
  change (Serialize (Float go)) with (coerceFloat go).
  change (ParseValue (String go)) with (coerceString go).
  change (Serialize (String go)) with (coerceString go).
  change (ParseValue (ID go)) with (coerceString go).
  change (Serialize (ID go)) with (coerceString go).
  change (ParseValue Boolean) with coerceBool.
  change (Serialize Boolean) with coerceBool.
  assert (Str : coerceString go value = Returns v -> coerceString go v = Returns v).
  { intros H. by_cases value; cbn in H; try discriminate;
      injection H as <-; reflexivity. }
  repeat match goal with |- _ /\ _ => split end; try exact Str.
  - intros H. destruct (coerceInt_accepted value v H N) as (i & r & _ & _ & I & ->).
    unfold int_. rewrite coerceInt_integer; [rewrite I; reflexivity|].
    apply int_out_of_range_spec in I.
    unfold fits, math.MinInt32, math.MaxInt32 in *. cbn [min_of max_of]. lia.
  - intros H. by_cases value; cbn in H; try discriminate;
      try (destruct (ParseFloat go s 0)); try discriminate;
      injection H as <-; try reflexivity; congruence.
  - intros H. by_cases value; cbn in H; try discriminate;
      injection H as <-; reflexivity.
Qed.

(** *** The literal paths *)

(** C4: [Int.ParseLiteral] accepts integer literal nodes only.  For such a
    node it parses the text of the node as an integer and returns the
    integer without a check against the 32-bit bounds: the literal of every
    [int], also of one outside of [-2^31, 2^31-1], comes back as that
    [int].  It returns "no value" when the text does not parse and for
    every other kind of node. *)
Theorem Int_ParseLiteral_no_bound_check :
  (forall text n, strconv.Atoi text = Some n ->
     ParseLiteral (Int go) (ast.IntValue text) = int_ n)
  /\ (forall n, math.MinInt64 <= n <= math.MaxInt64 ->
       ParseLiteral (Int go) (ast.IntValue (strconv.Itoa n)) = int_ n)
  /\ (ParseLiteral (Int go) (ast.IntValue "3000000000") = int_ 3000000000
       /\ math.MaxInt32 < 3000000000)
  /\ (forall text, strconv.Atoi text = None ->
       ParseLiteral (Int go) (ast.IntValue text) = Nil)
  /\ (forall node, is_int_literal node = false ->
       ParseLiteral (Int go) node = Nil).
Proof.
  repeat match goal with |- _ /\ _ => split end.
  - intros text n H. cbn. rewrite H. reflexivity.
  - intros n H. cbn. rewrite (Atoi_Itoa n H). reflexivity.
  - reflexivity.
  - reflexivity.
  - intros text H. cbn. rewrite H. reflexivity.
  - intros [] H; try discriminate; reflexivity.
Qed.

(** C5: [DateTime.ParseLiteral] accepts string literal nodes only, and
    returns the raw text of every such node unchanged; the timestamp parser
    is not run, so ["not-a-real-timestamp"], which [ParseValue] rejects,
    comes back as it is.  Every other kind of node gives "no value". *)
Theorem DateTime_ParseLiteral_raw_text :
  (forall text, ParseLiteral DateTime (ast.StringValue text) = string_ text)
  /\ (ParseLiteral DateTime (ast.StringValue "not-a-real-timestamp")
       = string_ "not-a-real-timestamp"
       /\ ParseValue DateTime (string_ "not-a-real-timestamp") = Returns Nil)
  /\ (forall node, is_string_literal node = false ->
       ParseLiteral DateTime node = Nil).
Proof.
  repeat match goal with |- _ /\ _ => split end; try reflexivity.
  intros [] H; try discriminate; reflexivity.
Qed.

(** C6: the value path of DateTime is a round trip on
    ["2021-01-02T03:04:05Z"]: [ParseValue] returns a timestamp and
    [Serialize] of that timestamp returns the text again. *)
Theorem DateTime_value_round_trip :
  (exists t, ParseValue DateTime (string_ "2021-01-02T03:04:05Z") = Returns (Val (VTime t)))
  /\ and_then (ParseValue DateTime (string_ "2021-01-02T03:04:05Z")) (Serialize DateTime)
     = Returns (string_ "2021-01-02T03:04:05Z").
Proof.
  split.
  - eexists. vm_compute. reflexivity.
  - vm_compute. reflexivity.
Qed.

(** *** Located errors *)

(** C7: [NewLocatedError err nodes] returns an error with the given
    nodes and with a stack equal to its message.  When [err] is an error,
    the message is the text of [err] and the original error is [err];
    when [err] is a string, the message is the string and the original
    error is a new error with that text; otherwise the message is
    ["An unknown error occurred."] and there is no original error. *)
Theorem NewLocatedError_fields (err : any) (nodes : list ast.Node) :
  gqlerrors.Nodes (NewLocatedError err nodes) = nodes
  /\ gqlerrors.Stack (NewLocatedError err nodes)
     = gqlerrors.Message (NewLocatedError err nodes)
  /\ (forall e, err = Err e ->
       gqlerrors.Message (NewLocatedError err nodes) = Error e
       /\ gqlerrors.OriginalError (NewLocatedError err nodes) = Some e)
  /\ (forall s, err = string_ s ->
       gqlerrors.Message (NewLocatedError err nodes) = s
       /\ gqlerrors.OriginalError (NewLocatedError err nodes) = Some (errors.New s)
       /\ Error (errors.New s) = s)
  /\ (is_error err = false -> is_string err = false ->
       gqlerrors.Message (NewLocatedError err nodes) = "An unknown error occurred."
       /\ gqlerrors.OriginalError (NewLocatedError err nodes) = None).
Proof.
  repeat match goal with |- _ /\ _ => split end.
  - by_cases err; reflexivity.
  - by_cases err; reflexivity.
  - intros e ->. split; reflexivity.
  - intros s ->. repeat split; reflexivity.
  - by_cases err; cbn; intros H1 H2; try discriminate; split; reflexivity.
Qed.

(** *** Serialize and ParseValue *)

(** C10: Int, Float, String, Boolean and ID have one function for
    [Serialize] and for [ParseValue], so that the two return the same
    result on every input; DateTime is the only scalar of the six whose
    [Serialize] and [ParseValue] are two functions: they differ on a
    timestamp text. *)
Theorem Serialize_is_ParseValue :
  (Serialize (Int go) = ParseValue (Int go)
   /\ Serialize (Float go) = ParseValue (Float go)
   /\ Serialize (String go) = ParseValue (String go)
   /\ Serialize Boolean = ParseValue Boolean
   /\ Serialize (ID go) = ParseValue (ID go))
  /\ (forall value,
       Serialize (Int go) value = ParseValue (Int go) value
       /\ Serialize (Float go) value = ParseValue (Float go) value
       /\ Serialize (String go) value = ParseValue (String go) value
       /\ Serialize Boolean value = ParseValue Boolean value
       /\ Serialize (ID go) value = ParseValue (ID go) value)
  /\ Serialize DateTime <> ParseValue DateTime
  /\ Serialize DateTime (string_ "2021-01-02T03:04:05Z")
     <> ParseValue DateTime (string_ "2021-01-02T03:04:05Z").
Proof.
  assert (D : Serialize DateTime (string_ "2021-01-02T03:04:05Z")
              <> ParseValue DateTime (string_ "2021-01-02T03:04:05Z"))
    by (vm_compute; discriminate).
  repeat match goal with |- _ /\ _ => split end; try reflexivity; try exact D.
  - intros value. repeat split.
  - intros E. apply D. rewrite E. reflexivity.
Qed.

End Properties.

(** * The claims at concrete inputs *)

(** C1 at the [int64] 42, at the [uint64] [2^64 - 1], whose conversion to
    [int64] is -1, and at the [float64] 3000000000. *)
Lemma Int_ParseValue_bounds_witness :
  graphql.ParseValue (graphql.Int sample_runtime) (Val (VInteger TInt64 42))
  = Returns (int_ 42)
  /\ graphql.ParseValue (graphql.Int sample_runtime)
       (Val (VInteger TUint64 18446744073709551615))
     = Returns Nil
  /\ graphql.ParseValue (graphql.Int sample_runtime)
       (Val (VFloat64 (float64_of_Z 3000000000)))
     = Returns Nil.
Proof.
  pose proof (Int_ParseValue_bounds sample_runtime) as (In & Out & OutF & _).
  split; [|split].
  - apply (In TInt64 42); unfold fits, math.MinInt32, math.MaxInt32;
      cbn [min_of max_of]; lia.
  - apply (Out TUint64 18446744073709551615);
      unfold fits, math.MinInt32, math.MaxInt32; cbn [min_of max_of]; lia.
  - apply (OutF (float64_of_Z 3000000000) 3000000000);
      [ vm_compute; reflexivity | vm_compute; reflexivity
      | unfold math.MinInt32, math.MaxInt32; lia ].
Defined.

(** C2 is not what the code does at the [int64] 1, which is not zero and
    coerces to [false], and at a nil pointer to a [bool], where the call
    panics. *)
Lemma Boolean_ParseValue_counterexample :
  ~ (forall t n, fits t n ->
       graphql.ParseValue graphql.Boolean (Val (VInteger t n))
       = Returns (bool_ (negb (n =? 0))))
  /\ ~ (forall value, exists b,
          graphql.ParseValue graphql.Boolean value = Returns (bool_ b)).
Proof.
  split.
  - intros H. specialize (H TInt64 1). cbn in H.
    assert (F : fits TInt64 1) by (unfold fits; cbn [min_of max_of]; lia).
    specialize (H F). discriminate H.
  - intros H. destruct (H (NilPtr TyBool)) as [b E]. discriminate E.
Qed.

(** C2, as amended, at a string other than [""] and ["false"] and at a
    value of a type without a case. *)
Lemma Boolean_ParseValue_coercion_witness :
  graphql.ParseValue graphql.Boolean (string_ "anything-else") = Returns (bool_ true)
  /\ graphql.ParseValue graphql.Boolean (Other 0) = Returns (bool_ false).
Proof.
  pose proof Boolean_ParseValue_coercion as (_ & _ & _ & Str & _ & _ & _ & _ & Un & _).
  split.
  - apply (Str "anything-else"); reflexivity.
  - apply (Un (Other 0)); reflexivity.
Defined.

(** C3 is not what the code does for Boolean: a value of a type without a
    case gives [false], which is a value. *)
Lemma only_Float_counterexample :
  ~ (forall value, kind_of bool_type value = Unsupported ->
       graphql.ParseValue graphql.Boolean value = Returns Nil).
Proof.
  intros H. specialize (H (Other 0) eq_refl). discriminate H.
Qed.

(** C3, as amended, at a value of a type without a case and at a string
    that is not a number. *)
Lemma Float_ParseValue_unsupported_kind_witness :
  graphql.ParseValue (graphql.Float sample_runtime) (Other 0)
  = Returns (float64_ graphql.float_zero)
  /\ graphql.ParseValue (graphql.Float sample_runtime) (string_ "abc") = Returns Nil.
Proof.
  pose proof (Float_ParseValue_unsupported_kind sample_runtime) as (Un & _ & Str & _).
  split.
  - apply (Un (Other 0)); reflexivity.
  - apply (Str "abc"); reflexivity.
Defined.

(** C4 at the literal [42] and at a string literal. *)
Lemma Int_ParseLiteral_no_bound_check_witness :
  graphql.ParseLiteral (graphql.Int sample_runtime) (ast.IntValue "42") = int_ 42
  /\ graphql.ParseLiteral (graphql.Int sample_runtime)
       (ast.IntValue "-9223372036854775808") = int_ (-9223372036854775808)
  /\ graphql.ParseLiteral (graphql.Int sample_runtime) (ast.IntValue "4x2") = Nil
  /\ graphql.ParseLiteral (graphql.Int sample_runtime) (ast.StringValue "42") = Nil.
Proof.
  pose proof (Int_ParseLiteral_no_bound_check sample_runtime)
    as (Ok & Any & _ & Bad & Other).
  split; [|split; [|split]].
  - apply (Ok "42" 42); reflexivity.
  - apply (Any (-9223372036854775808));
      unfold math.MinInt64, math.MaxInt64; lia.
  - apply (Bad "4x2"); reflexivity.
  - apply (Other (ast.StringValue "42")); reflexivity.
Defined.

(** C5 at an integer literal. *)
Lemma DateTime_ParseLiteral_raw_text_witness :
  graphql.ParseLiteral graphql.DateTime (ast.IntValue "7") = Nil.
Proof.
  pose proof DateTime_ParseLiteral_raw_text as (_ & _ & Other).
  apply (Other (ast.IntValue "7")); reflexivity.
Defined.

(** C7 at the string ["boom"] with two nodes, and at the [int] 42 with
    none. *)
Lemma NewLocatedError_fields_witness :
  (gqlerrors.Nodes
     (graphql.NewLocatedError (string_ "boom") [ast.IntValue "1"; ast.EnumValue "A"])
   = [ast.IntValue "1"; ast.EnumValue "A"]
   /\ gqlerrors.Message
        (graphql.NewLocatedError (string_ "boom") [ast.IntValue "1"; ast.EnumValue "A"])
      = "boom")
  /\ (gqlerrors.Message (graphql.NewLocatedError (int_ 42) [])
      = "An unknown error occurred."
      /\ gqlerrors.OriginalError (graphql.NewLocatedError (int_ 42) []) = None).
Proof.
  split.
  - pose proof (NewLocatedError_fields (string_ "boom")
                  [ast.IntValue "1"; ast.EnumValue "A"]) as (N & _ & _ & S & _).
    split; [exact N | apply (S "boom" eq_refl)].
  - pose proof (NewLocatedError_fields (int_ 42) []) as (_ & _ & _ & _ & U).
    apply U; reflexivity.
Defined.

(** C8 is not what the code does at a nil pointer to a string, where the
    call panics. *)
Lemma String_ID_coercion_counterexample :
  ~ (forall go value, exists s,
       graphql.ParseValue (graphql.String go) value = Returns (string_ s)).
Proof.
  intros H. destruct (H sample_runtime (NilPtr TyString)) as [s E]. discriminate E.
Qed.

(** C8, as amended, at the [int] 123. *)
Lemma String_ID_coercion_witness :
  exists s,
    graphql.Serialize (graphql.String sample_runtime) (int_ 123) = Returns (string_ s)
    /\ graphql.ParseValue (graphql.String sample_runtime) (int_ 123) = Returns (string_ s)
    /\ graphql.Serialize (graphql.ID sample_runtime) (int_ 123) = Returns (string_ s)
    /\ graphql.ParseValue (graphql.ID sample_runtime) (int_ 123) = Returns (string_ s).
Proof.
  pose proof (String_ID_coercion sample_runtime) as (Total & _).
  apply (Total (int_ 123)); reflexivity.
Defined.

(** C9 at an [int8], at a string [coerceFloat] parses, and at a boolean. *)
Lemma Serialize_ParseValue_stable_witness :
  graphql.Serialize (graphql.Int sample_runtime) (int_ 5) = Returns (int_ 5)
  /\ graphql.Serialize (graphql.Float sample_runtime) (float64_ (float64_of_Z 12))
     = Returns (float64_ (float64_of_Z 12))
  /\ graphql.Serialize graphql.Boolean (bool_ true) = Returns (bool_ true).
Proof.
  split; [|split].
  - apply (Serialize_ParseValue_stable sample_runtime
             (Val (VInteger TInt8 5)) (int_ 5)); [discriminate | reflexivity].
  - apply (Serialize_ParseValue_stable sample_runtime
             (string_ "12") (float64_ (float64_of_Z 12))); [discriminate | reflexivity].
  - apply (Serialize_ParseValue_stable sample_runtime
             (string_ "yes") (bool_ true)); [discriminate | reflexivity].
Defined.

(** * Further properties of [scalars.go] and [located.go] *)

Section Kinds.

Variable go : runtime.

Import graphql.


(** X2: a pointer that is not nil is coerced like the value it points to by
    [coerceInt], [coerceFloat], [coerceBool] and the two DateTime functions,
    and a byte slice is parsed like the string of its bytes; [coerceString]
    looks through a pointer to a string or to a [time.Time] only. *)
Theorem pointer_like_value (v : basic) :
  coerceInt go (Ptr v) = coerceInt go (Val v)
  /\ coerceFloat go (Ptr v) = coerceFloat go (Val v)
  /\ coerceBool (Ptr v) = coerceBool (Val v)
  /\ serializeDateTime (Ptr v) = serializeDateTime (Val v)
  /\ unserializeDateTime (Ptr v) = unserializeDateTime (Val v)
  /\ (forall b, unserializeDateTime (Bytes b) = unserializeDateTime (string_ b))
  /\ match type_of v with
     | TyString | TyTime => coerceString go (Ptr v) = coerceString go (Val v)
     | _ => coerceString go (Ptr v) = Returns (string_ (Sprint_opaque go (Ptr v)))
     end.
Proof.
  destruct v as [ b | [] n | f | f | s | t ];
    repeat match goal with |- _ /\ _ => split end; reflexivity.
Qed.

(** X3: which literal nodes each [ParseLiteral] accepts.  String and
    DateTime give a value exactly for string literals, Boolean exactly for
    boolean literals, ID exactly for integer and string literals; Int gives
    a value only for integer literals and Float only for float and integer
    literals. *)
Theorem ParseLiteral_accepts (node : ast.Value) :
  (ParseLiteral (String go) node <> Nil <-> is_string_literal node = true)
  /\ (ParseLiteral DateTime node <> Nil <-> is_string_literal node = true)
  /\ (ParseLiteral Boolean node <> Nil <-> is_bool_literal node = true)
  /\ (ParseLiteral (ID go) node <> Nil
      <-> is_int_literal node || is_string_literal node = true)
  /\ (ParseLiteral (Int go) node <> Nil -> is_int_literal node = true)
  /\ (ParseLiteral (Float go) node <> Nil
      -> is_float_literal node || is_int_literal node = true).
Proof.
  destruct node; cbn;
    repeat match goal with |- _ /\ _ => split end;
    try (split; intros H); try intros H;
    try reflexivity; try discriminate; try congruence.
Qed.

(** X4: the literal path and the value path of String, Boolean and ID
    agree: a string literal is parsed like the string value of its text, a
    boolean literal like the boolean, and ID parses the integer literal of
    [n] like the integer [n] of any integer type. *)
Theorem literal_like_value :
  (forall text,
     Returns (ParseLiteral (String go) (ast.StringValue text))
     = ParseValue (String go) (string_ text))
  /\ (forall b,
      Returns (ParseLiteral Boolean (ast.BooleanValue b))
      = ParseValue Boolean (bool_ b))
  /\ (forall text,
      Returns (ParseLiteral (ID go) (ast.StringValue text))
      = ParseValue (ID go) (string_ text))
  /\ (forall t n,
      Returns (ParseLiteral (ID go) (ast.IntValue (strconv.Itoa n)))
      = ParseValue (ID go) (Val (VInteger t n))).
Proof. repeat split. Qed.

End Kinds.

Section FieldNodes.

Variable Field : Type.
Variable node_of_field : Field -> ast.Node.

Lemma append_fields (fieldASTs : list Field) : forall nodes : list ast.Node,
  fold_left (fun nodes fieldAST => (nodes ++ [node_of_field fieldAST])%list)
            fieldASTs nodes
  = (nodes ++ map node_of_field fieldASTs)%list.
Proof.
  induction fieldASTs as [ | f fs IH ]; intros nodes; cbn [fold_left map].
  - symmetry. apply List.app_nil_r.
  - rewrite IH, <- List.app_assoc. reflexivity.
Qed.

(** X5: [FieldASTsToNodeASTs] returns the fields as nodes, one node for
    each field and in the order of the fields, and the error that
    [NewLocatedError] builds from them has these nodes. *)
Theorem FieldASTsToNodeASTs_nodes (fieldASTs : list Field) :
  graphql.FieldASTsToNodeASTs Field node_of_field fieldASTs
  = map node_of_field fieldASTs
  /\ List.length (graphql.FieldASTsToNodeASTs Field node_of_field fieldASTs)
     = List.length fieldASTs
  /\ (forall (i : nat) (f : Field), nth_error fieldASTs i = Some f ->
      nth_error (graphql.FieldASTsToNodeASTs Field node_of_field fieldASTs) i
      = Some (node_of_field f))
  /\ (forall err,
      gqlerrors.Nodes
        (graphql.NewLocatedError err
           (graphql.FieldASTsToNodeASTs Field node_of_field fieldASTs))
      = map node_of_field fieldASTs).
Proof.
  assert (E : graphql.FieldASTsToNodeASTs Field node_of_field fieldASTs
              = map node_of_field fieldASTs).
  { unfold graphql.FieldASTsToNodeASTs. apply append_fields. }
  rewrite E. repeat split.
  - apply List.length_map.
  - intros i f H. apply List.map_nth_error, H.
  - intros err. by_cases err; reflexivity.
Qed.

End FieldNodes.

(** ** Floats that are not integers *)

Section FloatTruncation.

(** The truncation of a finite float is the quotient of its value by the
    unit, rounded toward zero. *)
Lemma float_trunc_ulps (f : spec_float) :
  match f with S754_finite _ _ e => -1074 <= e | _ => True end ->
  is_finite f = true ->
  float_trunc f = Some (Z.quot (ulps f) (2 ^ 1074)).
Proof.
  pose proof pow_1074_pos as P.
  destruct f as [s | s | | s m e]; try discriminate; intros E _.
  - cbn [float_trunc ulps]. rewrite Z.quot_0_l by lia. reflexivity.
  - cbn [float_trunc ulps]. f_equal.
    assert (Q : Z.quot (Zpos m * 2 ^ (e + 1074)) (2 ^ 1074)
                = if 0 <=? e then Zpos m * 2 ^ e else Zpos m / 2 ^ (- e)).
    { assert (0 < 2 ^ (e + 1074)) by (apply Z.pow_pos_nonneg; lia).
      rewrite Z.quot_div_nonneg by nia.
      destruct (Z.leb_spec 0 e) as [Pe|Ne].
      - rewrite Z.pow_add_r, Z.mul_assoc by lia. apply Z.div_mul. lia.
      - assert (0 < 2 ^ (- e)) by (apply Z.pow_pos_nonneg; lia).
        replace (2 ^ 1074) with (2 ^ (- e) * 2 ^ (e + 1074))
          by (rewrite <- Z.pow_add_r by lia; f_equal; lia).
        apply Z.div_mul_cancel_r; lia. }
    destruct s; cbn [cond_Zopp]; [rewrite Z.quot_opp_l by lia|]; rewrite Q; reflexivity.
Qed.

(** A canonical float whose value is an integer [n] is recognised as [n]. *)
Lemma integer_value_of_ulps (f : spec_float) (n : Z) :
  match f with S754_finite _ _ e => -1074 <= e | _ => True end ->
  is_finite f = true -> ulps f = n * 2 ^ 1074 ->
  integer_value f = Some n.
Proof.
  pose proof pow_1074_pos as P.
  destruct f as [s | s | | s m e]; try discriminate; intros E _ U.
  - cbn [ulps] in U. cbn [integer_value]. f_equal. nia.
  - cbn [ulps] in U. cbn [integer_value].
    destruct (Z.leb_spec 0 e) as [Pe|Ne].
    + f_equal. rewrite Z.pow_add_r in U by lia.
      destruct s; cbn [cond_Zopp] in *; nia.
    + assert (R : 0 < 2 ^ (- e)) by (apply Z.pow_pos_nonneg; lia).
      assert (Q : 0 < 2 ^ (e + 1074)) by (apply Z.pow_pos_nonneg; lia).
      assert (T : 2 ^ 1074 = 2 ^ (- e) * 2 ^ (e + 1074))
        by (rewrite <- Z.pow_add_r by lia; f_equal; lia).
      assert (M : Zpos m = Z.abs n * 2 ^ (- e)).
      { rewrite T in U. destruct s; cbn [cond_Zopp] in U; nia. }
      assert (S : n = cond_Zopp s (Z.abs n)).
      { rewrite T in U. destruct s; cbn [cond_Zopp] in *; nia. }
      rewrite M, Z.mod_mul, Z.eqb_refl, Z.div_mul by lia.
      rewrite <- S. reflexivity.
Qed.

End FloatTruncation.

Section IntAndFloat.

Variable go : runtime.

Import graphql.

Lemma coerceInt_truncates_checked (f r : spec_float) :
  match f with S754_finite _ _ e => -1074 <= e | _ => True end ->
  is_finite f = true ->
  valid64 r = true -> is_finite r = true -> ulps r = ulps f ->
  exists x,
    float_trunc f = Some x
    /\ (if float_out_of_range r then Returns Nil
        else if int_out_of_range (int64_of_float go f) then Returns Nil
        else Returns (int_ (int64_of_float go f)))
       = Returns (if float_out_of_range r then Nil else int_ x)
    /\ (float_out_of_range r = false -> math.MinInt32 <= x <= math.MaxInt32).
Proof.
  intros E F Vr Fr U. pose proof pow_1074_pos as P.
  exists (Z.quot (ulps f) (2 ^ 1074)).
  pose proof (float_trunc_ulps f E F) as T.
  assert (B : float_out_of_range r = false ->
              math.MinInt32 <= Z.quot (ulps f) (2 ^ 1074) <= math.MaxInt32).
  { rewrite (float_out_of_range_ulps r Vr Fr), U, orb_false_iff, !Z.ltb_ge.
    intros [Lo Hi]. split.
    - rewrite <- (Z.quot_mul math.MinInt32 (2 ^ 1074)) by lia.
      apply Z.quot_le_mono; lia.
    - rewrite <- (Z.quot_mul math.MaxInt32 (2 ^ 1074)) by lia.
      apply Z.quot_le_mono; lia. }
  split; [exact T|split; [|exact B]].
  destruct (float_out_of_range r); [reflexivity|].
  specialize (B eq_refl).
  rewrite (int64_of_float_integer go f _ T)
    by (unfold math.MinInt32, math.MaxInt32, math.MinInt64, math.MaxInt64 in *; lia).
  apply int_out_of_range_spec in B. rewrite B. reflexivity.
Qed.

(** X6: on a finite [float64] or [float32], [coerceInt] does not depend on
    what the platform does with an invalid conversion.  When the float lies
    within [-2^31, 2^31-1] the result is the float truncated toward zero,
    which then lies within the bounds too; otherwise it is "no value", also
    for a float between [2^31-1] and [2^31], which truncates to
    [2^31-1]. *)
Theorem coerceInt_truncates :
  (forall f, valid64 f = true -> is_finite f = true ->
     exists x,
       float_trunc f = Some x
       /\ coerceInt go (Val (VFloat64 f))
          = Returns (if float_out_of_range f then Nil else int_ x)
       /\ (float_out_of_range f = false -> math.MinInt32 <= x <= math.MaxInt32))
  /\ (forall f, valid32 f = true -> is_finite f = true ->
      exists x,
        float_trunc f = Some x
        /\ coerceInt go (Val (VFloat32 f))
           = Returns (if float_out_of_range (float64_of_float32 f) then Nil else int_ x)
        /\ (float_out_of_range (float64_of_float32 f) = false ->
            math.MinInt32 <= x <= math.MaxInt32))
  /\ (let f := binary_normalize float64_prec float64_emax 4294967295 (-1) false in
      valid64 f = true
      /\ float_trunc f = Some math.MaxInt32
      /\ coerceInt go (Val (VFloat64 f)) = Returns Nil).
Proof.
  split; [|split].
  - intros f V F. unfold coerceInt. cbn [coerceInt_switch].
    apply coerceInt_truncates_checked;
      [apply valid64_exponent, V | exact F | exact V | exact F | reflexivity].
  - intros f V F. unfold coerceInt. cbn [coerceInt_switch].
    destruct (float64_of_float32_exact f V F) as (V' & F' & U).
    apply coerceInt_truncates_checked;
      [apply valid32_exponent, V | exact F | exact V' | exact F' | exact U].
  - cbv zeta. split; [reflexivity|split; [reflexivity|]].
    unfold coerceInt. cbn [coerceInt_switch].
    replace (float_out_of_range _) with true by (vm_compute; reflexivity).
    reflexivity.
Qed.

(** X7: an infinity is always coerced to "no value" by [coerceInt]; a NaN
    passes the check of the float, since it compares false with both
    bounds, so that the result is what the platform's conversion of a NaN to
    [int64] gives: "no value" where the conversion gives the least [int64],
    the integer 0 where it gives 0. *)
Theorem coerceInt_not_finite :
  (forall s,
     coerceInt go (Val (VFloat64 (S754_infinity s))) = Returns Nil
     /\ coerceInt go (Val (VFloat32 (S754_infinity s))) = Returns Nil)
  /\ float_out_of_range S754_nan = false
  /\ coerceInt go (Val (VFloat64 S754_nan))
     = Returns (if int_out_of_range (to_int64 (int64_invalid go S754_nan)) then Nil
                else int_ (to_int64 (int64_invalid go S754_nan)))
  /\ coerceInt sample_runtime (Val (VFloat64 S754_nan)) = Returns Nil
  /\ coerceInt saturating_runtime (Val (VFloat64 S754_nan)) = Returns (int_ 0).
Proof.
  repeat match goal with |- _ /\ _ => split end; try reflexivity.
  - intros s. destruct s; split; reflexivity.
  - unfold coerceInt. cbn [coerceInt_switch].
    replace (float_out_of_range S754_nan) with false by reflexivity.
    unfold int64_of_float. cbn [float_trunc].
    destruct (int_out_of_range _); reflexivity.
Qed.

(** X8: [coerceFloat] is exact on the integers below [2^53] in magnitude,
    of any integer type: the result is the [float64] equal to the integer,
    so that different integers give different floats.  Beyond, it rounds:
    [2^53] and [2^53 + 1] give the same float. *)
Theorem coerceFloat_integer_exact (t : inttype) (n : Z) :
  Z.abs n < 2 ^ 53 ->
  (exists f,
     coerceFloat go (Val (VInteger t n)) = Returns (float64_ f)
     /\ valid64 f = true /\ integer_value f = Some n)
  /\ (forall t' n', Z.abs n' < 2 ^ 53 ->
      coerceFloat go (Val (VInteger t' n')) = coerceFloat go (Val (VInteger t n)) ->
      n' = n)
  /\ coerceFloat go (int_ (2 ^ 53 + 1)) = coerceFloat go (int_ (2 ^ 53)).
Proof.
  intros H.
  assert (I : forall k, Z.abs k < 2 ^ 53 -> integer_value (float64_of_Z k) = Some k).
  { intros k Hk. destruct (float64_of_Z_exact k Hk) as (V & F & U).
    apply integer_value_of_ulps; [apply valid64_exponent, V | exact F | exact U]. }
  split; [|split].
  - exists (float64_of_Z n). split; [reflexivity|split; [|apply I, H]].
    apply float64_of_Z_exact, H.
  - intros t' n' H' E. cbn [coerceFloat] in E. unfold float64_ in E.
    assert (E' : float64_of_Z n' = float64_of_Z n) by congruence.
    pose proof (I n H) as In. pose proof (I n' H') as In'.
    rewrite E' in In'. congruence.
  - vm_compute. reflexivity.
Qed.

(** X9: an integer below [2^53] in magnitude that is coerced to a Float and
    from there to an Int gives what [coerceInt] gives on the integer
    itself. *)
Theorem coerceInt_after_coerceFloat (t : inttype) (n : Z) :
  fits t n -> Z.abs n < 2 ^ 53 ->
  and_then (coerceFloat go (Val (VInteger t n))) (coerceInt go)
  = coerceInt go (Val (VInteger t n)).
Proof.
  intros F H. cbn [coerceFloat and_then]. unfold float64_.
  destruct (float64_of_Z_exact n H) as (V & Fi & U).
  rewrite (coerceInt_float64 go (float64_of_Z n) n V),
          (coerceInt_integer go t n F).
  - reflexivity.
  - apply integer_value_of_ulps; [apply valid64_exponent, V | exact Fi | exact U].
Qed.

(** X10: for an [int] [n], the literal path and the value path of Int agree
    exactly when [n] lies within [-2^31, 2^31-1]: outside, [ParseLiteral]
    returns [n] and [ParseValue] "no value". *)
Theorem Int_literal_like_value (n : Z) :
  math.MinInt64 <= n <= math.MaxInt64 ->
  (Returns (ParseLiteral (Int go) (ast.IntValue (strconv.Itoa n)))
   = ParseValue (Int go) (int_ n)
   <-> math.MinInt32 <= n <= math.MaxInt32).
Proof.
  intros R. change (ParseValue (Int go)) with (coerceInt go).
  cbn [ParseLiteral Int NewScalar]. rewrite (Atoi_Itoa n R).
  unfold int_ at 2. rewrite coerceInt_integer
    by (unfold fits, math.MinInt64, math.MaxInt64 in *; cbn [min_of max_of]; lia).
  rewrite <- int_out_of_range_spec.
  destruct (int_out_of_range n); split; intros H; try reflexivity; discriminate H.
Qed.

End IntAndFloat.

(** ** Timestamps *)

Section TimeFacts.

Lemma digit_char_digit (d : Z) :
  0 <= d <= 9 ->
  time.is_digit (time.digit_char d) = true /\ time.digit_val (time.digit_char d) = d.
Proof.
  intros H.
  assert (C : d = 0 \/ d = 1 \/ d = 2 \/ d = 3 \/ d = 4 \/ d = 5 \/ d = 6
              \/ d = 7 \/ d = 8 \/ d = 9) by lia.
  repeat (destruct C as [-> | C]; [split; reflexivity|]).
  subst d. split; reflexivity.
Qed.

Lemma mod_10_digit (n : Z) : 0 <= n mod 10 <= 9.
Proof. pose proof (Z.mod_pos_bound n 10). lia. Qed.

(** Reading the digits [pad_digits] writes. *)
Lemma parse_pad_digits (w : nat) : forall (n : Z) (acc : string) (a : Z),
  0 <= n < 10 ^ Z.of_nat w ->
  time.parse_digits (time.pad_digits w n acc) a
  = time.parse_digits acc (a * 10 ^ Z.of_nat w + n).
Proof.
  induction w as [ | w IH ]; intros n acc a H.
  - cbn [time.pad_digits]. change (10 ^ Z.of_nat 0) with 1 in *.
    f_equal. lia.
  - cbn [time.pad_digits].
    rewrite Nat2Z.inj_succ, Z.pow_succ_r in * by lia.
    rewrite IH by (Z.to_euclidean_division_equations; lia).
    cbn [time.parse_digits].
    destruct (digit_char_digit (n mod 10) (mod_10_digit n)) as [D V].
    rewrite D, V. f_equal. Z.to_euclidean_division_equations; lia.
Qed.

Lemma span_pad_digits (w : nat) : forall (n : Z) (acc : string),
  time.span_digits (time.pad_digits w n acc)
  = let (d, r) := time.span_digits acc in (time.pad_digits w n d, r).
Proof.
  induction w as [ | w IH ]; intros n acc.
  - cbn [time.pad_digits]. destruct (time.span_digits acc); reflexivity.
  - cbn [time.pad_digits]. rewrite IH. cbn [time.span_digits].
    destruct (digit_char_digit (n mod 10) (mod_10_digit n)) as [D _].
    rewrite D. destruct (time.span_digits acc); reflexivity.
Qed.

Lemma pad_digits_app (w : nat) : forall (n : Z) (acc z : string),
  (time.pad_digits w n acc ++ z)%string = time.pad_digits w n (acc ++ z).
Proof.
  induction w as [ | w IH ]; intros n acc z; cbn [time.pad_digits].
  - reflexivity.
  - rewrite IH. reflexivity.
Qed.

Lemma length_pad_digits (w : nat) : forall (n : Z) (acc : string),
  String.length (time.pad_digits w n acc) = (w + String.length acc)%nat.
Proof.
  induction w as [ | w IH ]; intros n acc; cbn [time.pad_digits].
  - reflexivity.
  - rewrite IH. cbn [String.length]. lia.
Qed.

Lemma appendInt_pad (n : Z) (w : nat) :
  0 <= n < 10 ^ Z.of_nat w -> time.appendInt n w = time.pad_digits w n "".
Proof.
  intros H. unfold time.appendInt. rewrite Z.abs_eq by lia.
  destruct (Z.ltb_spec n (10 ^ Z.of_nat w)); [|lia].
  destruct (Z.ltb_spec n 0); [lia|reflexivity].
Qed.

Lemma parseUint_pad (w : nat) (n lo hi : Z) :
  0 <= n < 10 ^ Z.of_nat w -> lo <= n <= hi ->
  time.parseUint (time.pad_digits w n "") lo hi = Some n.
Proof.
  intros H B. unfold time.parseUint. rewrite parse_pad_digits by exact H.
  cbn [time.parse_digits]. change (0 * 10 ^ Z.of_nat w + n) with n.
  destruct (Z.ltb_spec n lo); [lia|]. destruct (Z.ltb_spec hi n); [lia|].
  reflexivity.
Qed.

Lemma substring_all (s : string) : String.substring 0 (String.length s) s = s.
Proof. induction s as [ | c s IH ]; cbn; [reflexivity | rewrite IH; reflexivity]. Qed.

Lemma substring_none (s : string) : String.substring 0 0 s = "".
Proof. destruct s; reflexivity. Qed.

(** [UnmarshalText] on a text with the five separators in their places. *)
Lemma UnmarshalText_fields
    (y1 y2 y3 y4 m1 m2 d1 d2 h1 h2 i1 i2 s1 s2 : ascii) (tail : string) :
  time.UnmarshalText
    (String y1 (String y2 (String y3 (String y4 (String "-"
    (String m1 (String m2 (String "-" (String d1 (String d2 (String "T"
    (String h1 (String h2 (String ":" (String i1 (String i2 (String ":"
    (String s1 (String s2 tail)))))))))))))))))))
  = match time.parseUint (String y1 (String y2 (String y3 (String y4 ""))))
            0 9999,
          time.parseUint (String m1 (String m2 "")) 1 12 with
    | Some year, Some month =>
        match time.parseUint (String d1 (String d2 "")) 1 (time.daysIn month year),
              time.parseUint (String h1 (String h2 "")) 0 23,
              time.parseUint (String i1 (String i2 "")) 0 59,
              time.parseUint (String s1 (String s2 "")) 0 59 with
        | Some day, Some hour, Some min, Some sec =>
            match fraction_and_zone tail with
            | Some (nsec, off) =>
                Some (time.mkTime year month day hour min sec nsec off)
            | None => None
            end
        | _, _, _, _ => None
        end
    | _, _ => None
    end.
Proof.
  unfold time.UnmarshalText.
  cbn [String.length Nat.ltb Nat.leb String.substring String.get time.char_at
       Nat.sub Ascii.eqb Bool.eqb andb].
  rewrite Nat.sub_0_r, substring_all, substring_none.
  destruct (time.parseUint _ 0 9999) as [year|]; [|reflexivity].
  destruct (time.parseUint _ 1 12) as [month|]; [|reflexivity].
  destruct (time.parseUint _ 1 _) as [day|]; [|reflexivity].
  destruct (time.parseUint _ 0 23) as [hour|]; [|reflexivity].
  destruct (time.parseUint _ 0 59) as [min|]; [|reflexivity].
  destruct (time.parseUint _ 0 59) as [sec|]; [|reflexivity].
  unfold fraction_and_zone.
  destruct tail as [ | c [ | c' tail ] ]; cbn beta iota zeta.
  - destruct (time.parse_zone ""); reflexivity.
  - destruct c as [[] [] [] [] [] [] [] []];
      destruct (time.parse_zone _); reflexivity.
  - destruct c as [[] [] [] [] [] [] [] []];
      try (destruct (time.parse_zone _); reflexivity).
    destruct (time.is_digit c'); [destruct (time.span_digits _)|];
      destruct (time.parse_zone _); reflexivity.
Qed.

Lemma substring_short (s : string) : forall n : nat,
  (String.length s <= n)%nat -> String.substring 0 n s = s.
Proof.
  induction s as [ | c s IH ]; intros [ | n ] H; cbn in *; try reflexivity; try lia.
  rewrite IH by lia. reflexivity.
Qed.

Lemma fraction_and_zone_none (z : string) :
  zone_head z ->
  fraction_and_zone z
  = match time.parse_zone z with Some off => Some (0, off) | None => None end.
Proof.
  intros (c & rest & -> & _ & N). unfold fraction_and_zone.
  destruct c as [[] [] [] [] [] [] [] []]; try reflexivity.
  congruence.
Qed.

Lemma span_digits_zone (z : string) : zone_head z -> time.span_digits z = ("", z).
Proof. intros (c & rest & -> & D & _). cbn. rewrite D. reflexivity. Qed.

Lemma pad_digits_head (w : nat) : forall (n : Z) (c : ascii) (r : string),
  time.is_digit c = true ->
  exists c' r', time.pad_digits w n (String c r) = String c' r'
                /\ time.is_digit c' = true.
Proof.
  induction w as [ | w IH ]; intros n c r D; cbn [time.pad_digits].
  - exists c, r. split; [reflexivity|exact D].
  - apply IH. apply digit_char_digit, mod_10_digit.
Qed.

Lemma fraction_and_zone_digits (w : nat) (n : Z) (z : string) (off : Z) :
  (1 <= w <= 9)%nat -> 0 <= n < 10 ^ Z.of_nat w ->
  zone_head z -> time.parse_zone z = Some off ->
  fraction_and_zone (String "." (time.pad_digits w n z))
  = Some (n * 10 ^ (9 - Z.of_nat w), off).
Proof.
  intros W N Hz Pz.
  destruct w as [ | w ]; [lia|].
  assert (Hd : exists c r, time.pad_digits (S w) n z = String c r
                           /\ time.is_digit c = true).
  { cbn [time.pad_digits]. apply pad_digits_head.
    apply digit_char_digit, mod_10_digit. }
  destruct Hd as (c & r & E & D).
  unfold fraction_and_zone. rewrite E, D, <- E.
  rewrite span_pad_digits, (span_digits_zone z Hz), Pz.
  unfold time.parseNanoseconds.
  rewrite substring_short by (rewrite length_pad_digits; cbn [String.length]; lia).
  rewrite parse_pad_digits by exact N. cbn [time.parse_digits].
  rewrite length_pad_digits. cbn [String.length]. rewrite Nat.add_0_r.
  change (0 * 10 ^ Z.of_nat (S w) + n) with n. reflexivity.
Qed.

(** Reading the fraction [trim_zeros] writes, in front of a zone. *)
Lemma fraction_and_zone_trim (fuel : nat) : forall (n : Z) (w : nat) (z : string) (off : Z),
  (w <= fuel)%nat -> (w <= 9)%nat -> 0 <= n < 10 ^ Z.of_nat w ->
  zone_head z -> time.parse_zone z = Some off ->
  fraction_and_zone (time.trim_zeros fuel n w ++ z)
  = Some (n * 10 ^ (9 - Z.of_nat w), off).
Proof.
  induction fuel as [ | fuel IH ]; intros n w z off F W N Hz Pz.
  - assert (w = 0%nat) by lia. subst w. change (10 ^ Z.of_nat 0) with 1 in N.
    assert (n = 0) by lia. subst n.
    cbn [time.trim_zeros append]. rewrite fraction_and_zone_none, Pz by exact Hz.
    reflexivity.
  - cbn [time.trim_zeros].
    destruct (Z.eqb_spec n 0) as [-> | Nz].
    + cbn [append]. rewrite fraction_and_zone_none, Pz by exact Hz. reflexivity.
    + assert (Wp : (1 <= w)%nat).
      { destruct w; [change (10 ^ Z.of_nat 0) with 1 in N; lia|lia]. }
      destruct (Z.eqb_spec (n mod 10) 0) as [M | M].
      * assert (P : 10 ^ Z.of_nat w = 10 * 10 ^ Z.of_nat (Nat.pred w)).
        { rewrite <- Z.pow_succ_r by lia. f_equal. lia. }
        rewrite (IH (n / 10) (Nat.pred w) z off); try assumption; try lia.
        -- f_equal. f_equal.
           replace (9 - Z.of_nat (Nat.pred w)) with (Z.succ (9 - Z.of_nat w)) by lia.
           rewrite Z.pow_succ_r by lia.
           Z.to_euclidean_division_equations; nia.
        -- rewrite P in N. Z.to_euclidean_division_equations; lia.
      * cbn [append]. rewrite pad_digits_app. cbn [append].
        apply fraction_and_zone_digits; try assumption; lia.
Qed.

Lemma zone_head_format (off : Z) : zone_head (time.format_zone off).
Proof.
  unfold time.format_zone, zone_head.
  destruct (off =? 0); [exists "Z"%char, ""; repeat split; discriminate|].
  destruct (Z.quot off 60 <? 0); cbn [append];
    do 2 eexists; (split; [reflexivity|split; [reflexivity|discriminate]]).
Qed.

Lemma parse_format_zone (off : Z) :
  off mod 60 = 0 -> Z.abs off < 24 * 3600 ->
  time.parse_zone (time.format_zone off) = Some off.
Proof.
  intros M B. unfold time.format_zone.
  destruct (Z.eqb_spec off 0) as [-> | Nz]; [reflexivity|].
  set (zone := Z.abs (Z.quot off 60)).
  assert (Q : off = 60 * Z.quot off 60).
  { rewrite (Z.quot_rem' off 60) at 1.
    assert (Z.rem off 60 = 0); [|lia].
    apply Z.rem_divide; [lia|]. apply Z.mod_divide; [lia|exact M]. }
  assert (Zb : 0 <= zone < 1440) by (unfold zone; lia).
  assert (H : 0 <= zone / 60 <= 23) by (Z.to_euclidean_division_equations; lia).
  assert (Mi : 0 <= zone mod 60 <= 59) by (Z.to_euclidean_division_equations; lia).
  rewrite !appendInt_pad by (change (10 ^ Z.of_nat 2) with 100; lia).
  assert (V : (zone / 60 * 60 + zone mod 60) * 60 = Z.abs off)
    by (Z.to_euclidean_division_equations; lia).
  unfold time.parse_zone.
  destruct (Z.ltb_spec (Z.quot off 60) 0) as [Neg | Pos];
    cbn [append time.pad_digits String.eqb Ascii.eqb Bool.eqb String.length
         Nat.eqb negb String.substring time.char_at String.get orb andb];
    rewrite ?substring_none;
    change (String (time.digit_char (zone / 60 / 10 mod 10))
              (String (time.digit_char (zone / 60 mod 10)) ""))
      with (time.pad_digits 2 (zone / 60) "");
    change (String (time.digit_char (zone mod 60 / 10 mod 10))
              (String (time.digit_char (zone mod 60 mod 10)) ""))
      with (time.pad_digits 2 (zone mod 60) "");
    rewrite !parseUint_pad by (change (10 ^ Z.of_nat 2) with 100; lia);
    rewrite V; f_equal; lia.
Qed.

Lemma rfc3339_time_spec (t : time.Time) :
  rfc3339_time t = true <->
  (0 <= time.Year t <= 9999 /\ 1 <= time.Month t <= 12
   /\ 1 <= time.Day t <= time.daysIn (time.Month t) (time.Year t)
   /\ 0 <= time.Hour t <= 23 /\ 0 <= time.Minute t <= 59
   /\ 0 <= time.Second t <= 59 /\ 0 <= time.Nanosecond t < 10 ^ 9
   /\ time.Offset t mod 60 = 0 /\ Z.abs (time.Offset t) < 24 * 3600).
Proof.
  unfold rfc3339_time.
  rewrite !andb_true_iff, !Z.leb_le, !Z.ltb_lt, Z.eqb_eq. tauto.
Qed.

(** [UnmarshalText] reads back what [MarshalText] writes. *)
Lemma UnmarshalText_MarshalText (t : time.Time) :
  rfc3339_time t = true ->
  exists text, time.MarshalText t = Some text /\ time.UnmarshalText text = Some t.
Proof.
  intros W. apply rfc3339_time_spec in W.
  destruct t as [Y M D h mi s ns off]. cbn [time.Year time.Month time.Day time.Hour
    time.Minute time.Second time.Nanosecond time.Offset] in W.
  destruct W as (HY & HM & HD & Hh & Hmi & Hs & Hns & Hoff & Hab).
  assert (HD' : D <= 31).
  { unfold time.daysIn in HD.
    destruct (M =? 2); [destruct (time.isLeap Y)|destruct (_ || _)]; lia. }
  exists (time.appendFormatRFC3339 (time.mkTime Y M D h mi s ns off)). split.
  - unfold time.MarshalText. cbn [time.Year time.Offset].
    destruct (Z.ltb_spec Y 0); [lia|]. destruct (Z.ltb_spec 9999 Y); [lia|].
    destruct (Z.leb_spec (24 * 3600) (Z.abs off)); [lia|]. reflexivity.
  - unfold time.appendFormatRFC3339.
    cbn [time.Year time.Month time.Day time.Hour time.Minute time.Second
         time.Nanosecond time.Offset].
    rewrite !appendInt_pad
      by (change (10 ^ Z.of_nat 2) with 100; change (10 ^ Z.of_nat 4) with 10000; lia).
    pose proof (parseUint_pad 4 Y 0 9999) as PY.
    pose proof (parseUint_pad 2 M 1 12) as PM.
    pose proof (parseUint_pad 2 D 1 (time.daysIn M Y)) as PD.
    pose proof (parseUint_pad 2 h 0 23) as Ph.
    pose proof (parseUint_pad 2 mi 0 59) as Pmi.
    pose proof (parseUint_pad 2 s 0 59) as Ps.
    change (10 ^ Z.of_nat 2) with 100 in *. change (10 ^ Z.of_nat 4) with 10000 in *.
    cbn [time.pad_digits append] in *.
    rewrite UnmarshalText_fields.
    rewrite PY, PM by lia. cbv iota beta.
    rewrite PD, Ph, Pmi, Ps by lia. cbv iota beta.
    rewrite (fraction_and_zone_trim 9 ns 9 (time.format_zone off) off);
      try lia; try (change (10 ^ Z.of_nat 9) with (10 ^ 9); lia).
    + change (9 - Z.of_nat 9) with 0. rewrite Z.pow_0_r, Z.mul_1_r. reflexivity.
    + apply zone_head_format.
    + apply parse_format_zone; assumption.
Qed.








End TimeFacts.

Section DateTimeProperties.

Import graphql.

(** X11: [Serialize] and then [ParseValue] of DateTime is the identity on
    the timestamps RFC 3339 can write (a year of four digits, a zone of
    whole minutes less than a day from UTC), given by value or through a
    pointer. *)
Theorem DateTime_Serialize_ParseValue (t : time.Time) :
  rfc3339_time t = true ->
  and_then (Serialize DateTime (Val (VTime t))) (ParseValue DateTime)
  = Returns (Val (VTime t))
  /\ and_then (Serialize DateTime (Ptr (VTime t))) (ParseValue DateTime)
     = Returns (Val (VTime t)).
Proof.
  intros W. destruct (UnmarshalText_MarshalText t W) as (text & M & U).
  cbn [Serialize ParseValue DateTime NewScalar serializeDateTime].
  rewrite M. cbn [and_then unserializeDateTime string_]. rewrite U.
  split; reflexivity.
Qed.


End DateTimeProperties.

Section ResultKinds.

Variable go : runtime.

Import graphql.

(** X13: what [coerceFloat] returns is a [float64], except in two cases:
    for a [float32], by value or through a pointer, it returns that
    [float32], not widened; for a string that does not parse, and for
    nothing else, it returns "no value". *)
Theorem coerceFloat_result (value v : any) :
  coerceFloat go value = Returns v ->
  (exists f, v = float64_ f)
  \/ (exists f, v = Val (VFloat32 f)
                /\ (value = Val (VFloat32 f) \/ value = Ptr (VFloat32 f)))
  \/ (v = Nil
      /\ exists s, (value = string_ s \/ value = Ptr (VString s))
                   /\ ParseFloat go s 0 = None).
Proof.
  intros H.
  by_cases value; cbn [coerceFloat] in H; try discriminate H;
    try (injection H as <-; left; eexists; reflexivity);
    try (injection H as <-; right; left; eexists; split; [reflexivity|auto]).
  - destruct (ParseFloat go s 0) eqn:P; injection H as <-;
      [left; eexists; reflexivity|].
    right; right. split; [reflexivity|]. exists s. auto.
  - destruct (ParseFloat go s 0) eqn:P; injection H as <-;
      [left; eexists; reflexivity|].
    right; right. split; [reflexivity|]. exists s. auto.
Qed.

(** X14: what [ParseLiteral] returns for a literal it accepts is returned
    unchanged by [Serialize] for String, ID, Boolean and Float.  For
    DateTime, [ParseLiteral] returns a string and never a timestamp, which
    [Serialize] refuses: [Serialize] of the result is always "no value", and
    the literal path and the value path agree on no input unless both give
    "no value". *)
Theorem Serialize_after_ParseLiteral (node : ast.Value) :
  (ParseLiteral (String go) node <> Nil ->
   Serialize (String go) (ParseLiteral (String go) node)
   = Returns (ParseLiteral (String go) node))
  /\ (ParseLiteral (ID go) node <> Nil ->
      Serialize (ID go) (ParseLiteral (ID go) node)
      = Returns (ParseLiteral (ID go) node))
  /\ (ParseLiteral Boolean node <> Nil ->
      Serialize Boolean (ParseLiteral Boolean node)
      = Returns (ParseLiteral Boolean node))
  /\ (ParseLiteral (Float go) node <> Nil ->
      Serialize (Float go) (ParseLiteral (Float go) node)
      = Returns (ParseLiteral (Float go) node))
  /\ Serialize DateTime (ParseLiteral DateTime node) = Returns Nil
  /\ (forall t, ParseLiteral DateTime node <> Val (VTime t))
  /\ (forall value,
      Returns (ParseLiteral DateTime node) = ParseValue DateTime value ->
      ParseLiteral DateTime node = Nil).
Proof.
  repeat match goal with |- _ /\ _ => split end.
  - destruct node; cbn; intros H; congruence.
  - destruct node; cbn; intros H; congruence.
  - destruct node; cbn; intros H; congruence.
  - destruct node; cbn; intros H; try congruence;
      destruct (ParseFloat go text 32); (reflexivity || congruence).
  - destruct node; reflexivity.
  - intros t. destruct node; discriminate.
  - intros value. cbn [ParseValue DateTime NewScalar].
    destruct node as [ ? | ? | lit | ? | ? | ? | | ]; cbn [ParseLiteral];
      try reflexivity.
    intros H. exfalso.
    by_cases value; cbn [unserializeDateTime] in H; try discriminate H;
      match type of H with
      | context [time.UnmarshalText ?b] =>
          destruct (time.UnmarshalText b); discriminate H
      end.
Qed.

End ResultKinds.

(** * The further properties at concrete inputs *)

(** X6 at the [float64] 1.5 and at the [float32] -2.5. *)
Lemma coerceInt_truncates_witness :
  graphql.coerceInt sample_runtime
    (Val (VFloat64 (binary_normalize float64_prec float64_emax 3 (-1) false)))
  = Returns (int_ 1)
  /\ graphql.coerceInt sample_runtime
       (Val (VFloat32 (binary_normalize float32_prec float32_emax (-5) (-1) false)))
     = Returns (int_ (-2)).
Proof.
  pose proof (coerceInt_truncates sample_runtime) as (F64 & F32 & _).
  split.
  - destruct (F64 (binary_normalize float64_prec float64_emax 3 (-1) false))
      as (x & T & C & _); [reflexivity | reflexivity |].
    vm_compute in T. injection T as <-. rewrite C. reflexivity.
  - destruct (F32 (binary_normalize float32_prec float32_emax (-5) (-1) false))
      as (x & T & C & _); [reflexivity | reflexivity |].
    vm_compute in T. injection T as <-. rewrite C. reflexivity.
Defined.

(** X8 at the [int32] -7. *)
Lemma coerceFloat_integer_exact_witness :
  exists f,
    graphql.coerceFloat sample_runtime (Val (VInteger TInt32 (-7))) = Returns (float64_ f)
    /\ valid64 f = true /\ integer_value f = Some (-7).
Proof.
  apply (coerceFloat_integer_exact sample_runtime TInt32 (-7)). lia.
Defined.

(** X9 at the [uint32] 4000000000, which is "no value" on both sides, and at
    the [int16] 12. *)
Lemma coerceInt_after_coerceFloat_witness :
  and_then (graphql.coerceFloat sample_runtime (Val (VInteger TUint32 4000000000)))
           (graphql.coerceInt sample_runtime)
  = graphql.coerceInt sample_runtime (Val (VInteger TUint32 4000000000))
  /\ and_then (graphql.coerceFloat sample_runtime (Val (VInteger TInt16 12)))
              (graphql.coerceInt sample_runtime)
     = graphql.coerceInt sample_runtime (Val (VInteger TInt16 12)).
Proof.
  split.
  - apply (coerceInt_after_coerceFloat sample_runtime TUint32 4000000000);
      [unfold fits; cbn [min_of max_of]; lia | lia].
  - apply (coerceInt_after_coerceFloat sample_runtime TInt16 12);
      [unfold fits; cbn [min_of max_of]; lia | lia].
Defined.

(** X10 at 3000000000, where the two paths differ. *)
Lemma Int_literal_like_value_witness :
  Returns (graphql.ParseLiteral (graphql.Int sample_runtime)
             (ast.IntValue (strconv.Itoa 3000000000)))
  <> graphql.ParseValue (graphql.Int sample_runtime) (int_ 3000000000).
Proof.
  intros E.
  apply (Int_literal_like_value sample_runtime 3000000000) in E;
    unfold math.MinInt64, math.MaxInt64, math.MinInt32, math.MaxInt32 in *; lia.
Defined.

(** X11 at half a second before midnight of a leap day, five and a half
    hours east of UTC. *)
Lemma DateTime_Serialize_ParseValue_witness :
  and_then (graphql.Serialize graphql.DateTime
              (Val (VTime (time.mkTime 2020 2 29 23 59 59 500000000 19800))))
           (graphql.ParseValue graphql.DateTime)
  = Returns (Val (VTime (time.mkTime 2020 2 29 23 59 59 500000000 19800))).
Proof.
  apply (DateTime_Serialize_ParseValue
           (time.mkTime 2020 2 29 23 59 59 500000000 19800)).
  vm_compute. reflexivity.
Defined.


(** X13 at a [float32] behind a pointer. *)
Lemma coerceFloat_result_witness :
  (exists f, Val (VFloat32 (S754_zero true)) = float64_ f)
  \/ (exists f, Val (VFloat32 (S754_zero true)) = Val (VFloat32 f)
                /\ (Ptr (VFloat32 (S754_zero true)) = Val (VFloat32 f)
                    \/ Ptr (VFloat32 (S754_zero true)) = Ptr (VFloat32 f)))
  \/ (Val (VFloat32 (S754_zero true)) = Nil
      /\ exists s, (Ptr (VFloat32 (S754_zero true)) = string_ s
                    \/ Ptr (VFloat32 (S754_zero true)) = Ptr (VString s))
                   /\ ParseFloat sample_runtime s 0 = None).
Proof.
  apply (coerceFloat_result sample_runtime (Ptr (VFloat32 (S754_zero true)))).
  reflexivity.
Defined.
